(** * BRV32 / BRV32P verification support: firmware generator and testbench waiters

    A shallow embedding of

    - [firmware/gen_firmware.py]: the RV32I format encoders, the mnemonic
      wrappers, the test program with its in-place patch, and the hex
      serializer;
    - [cocotb/test_brv32p_soc.py]: the register observer [get_reg] and the
      two timeout-bounded waiters [wait_reg] and [wait_reg_nonzero].

    Python integers are unbounded, so they are modelled as [Z]; [&], [|],
    [<<] and [>>] are [Z.land], [Z.lor], [Z.shiftl] and [Z.shiftr], which
    agree with Python's infinite two's-complement semantics also on negative
    operands.  Python lists are [list Z] with stdpp's lookup and insert. *)

From Stdlib Require Import ZArith Lia List String Ascii Bool DecimalString.
From stdpp Require Import base list.

Local Open Scope Z_scope.

(** ** Python run-time conventions shared by both source files *)

Module Py.

(** The built-in exceptions the modelled code can meet. *)
Inductive exn : Type :=
| IndexError
| ValueError
| AttributeError.

(** The result of evaluating a Python expression or call: a value, or a
    raised exception. *)
Inductive outcome (A : Type) : Type :=
| Ret (a : A)
| Raise (e : exn).

Arguments Ret {A} a.
Arguments Raise {A} e.

(** [l[i] = v] on a Python list: indices [0 .. len-1] address from the front,
    [-len .. -1] from the back, anything else raises [IndexError]; the list is
    never extended. *)
Definition list_setitem (l : list Z) (i : Z) (v : Z) : outcome (list Z) :=
  let n := Z.of_nat (length l) in
  if (0 <=? i) && (i <? n) then Ret (<[Z.to_nat i := v]> l)
  else if (- n <=? i) && (i <? 0) then Ret (<[Z.to_nat (n + i) := v]> l)
  else Raise IndexError.

(** The character [chr(10)], Python's ["\n"]. *)
Definition newline : ascii := "010"%char.

(** One uppercase hexadecimal digit, for [0 <= d < 16]. *)
Definition hex_digit (d : Z) : ascii :=
  match d with
  | 0 => "0" | 1 => "1" | 2 => "2" | 3 => "3"
  | 4 => "4" | 5 => "5" | 6 => "6" | 7 => "7"
  | 8 => "8" | 9 => "9" | 10 => "A" | 11 => "B"
  | 12 => "C" | 13 => "D" | 14 => "E" | _ => "F"
  end%char.

(** The digits of [n >= 0] in base 16, most significant first, prepended to
    [acc]; at least one digit is produced. *)
Fixpoint hex_digits (fuel : nat) (n : Z) (acc : string) : string :=
  match fuel with
  | O => acc
  | S fuel' =>
      let acc' := String (hex_digit (n mod 16)) acc in
      if n / 16 =? 0 then acc' else hex_digits fuel' (n / 16) acc'
  end.

(** [format(n, "X")] for [n >= 0]: [log2 n + 1] bounds the number of digits. *)
Definition hex_upper (n : Z) : string :=
  hex_digits (S (Z.to_nat (Z.log2 n))) n EmptyString.

(** A run of [k] zero characters in front of [s]. *)
Fixpoint zeros (k : nat) (s : string) : string :=
  match k with
  | O => s
  | S k' => String "0"%char (zeros k' s)
  end.

(** Left padding with ["0"] up to [width]; longer strings are left alone. *)
Definition zfill (width : nat) (s : string) : string :=
  zeros (width - String.length s)%nat s.

(** [format(z, "08X")]: sign-aware zero padding to a minimum width of 8. *)
Definition format_08X (z : Z) : string :=
  if z <? 0 then String "-"%char (zfill 7 (hex_upper (- z)))
  else zfill 8 (hex_upper z).

(** [str(z)] for an integer. *)
Definition str (z : Z) : string := NilZero.string_of_int (Z.to_int z).

End Py.

Import Py.

(** ** Part I.  firmware/gen_firmware.py *)

Module Firmware.

(** *** The six format encoders (lines 4-31) *)

Definition r_type (funct7 rs2 rs1 funct3 rd opcode : Z) : Z :=
  Z.lor (Z.lor (Z.lor (Z.lor (Z.lor
    (Z.shiftl funct7 25) (Z.shiftl rs2 20)) (Z.shiftl rs1 15))
    (Z.shiftl funct3 12)) (Z.shiftl rd 7)) opcode.

Definition i_type (imm rs1 funct3 rd opcode : Z) : Z :=
  Z.lor (Z.lor (Z.lor (Z.lor
    (Z.shiftl (Z.land imm 0xFFF) 20) (Z.shiftl rs1 15))
    (Z.shiftl funct3 12)) (Z.shiftl rd 7)) opcode.

Definition s_type (imm rs2 rs1 funct3 opcode : Z) : Z :=
  let imm11_5 := Z.land (Z.shiftr imm 5) 0x7F in
  let imm4_0 := Z.land imm 0x1F in
  Z.lor (Z.lor (Z.lor (Z.lor (Z.lor
    (Z.shiftl imm11_5 25) (Z.shiftl rs2 20)) (Z.shiftl rs1 15))
    (Z.shiftl funct3 12)) (Z.shiftl imm4_0 7)) opcode.

Definition b_type (imm rs2 rs1 funct3 opcode : Z) : Z :=
  let imm12 := Z.land (Z.shiftr imm 12) 1 in
  let imm10_5 := Z.land (Z.shiftr imm 5) 0x3F in
  let imm4_1 := Z.land (Z.shiftr imm 1) 0xF in
  let imm11 := Z.land (Z.shiftr imm 11) 1 in
  Z.lor (Z.lor (Z.lor (Z.lor (Z.lor (Z.lor (Z.lor
    (Z.shiftl imm12 31) (Z.shiftl imm10_5 25)) (Z.shiftl rs2 20))
    (Z.shiftl rs1 15)) (Z.shiftl funct3 12)) (Z.shiftl imm4_1 8))
    (Z.shiftl imm11 7)) opcode.

Definition u_type (imm rd opcode : Z) : Z :=
  Z.lor (Z.lor (Z.land imm 0xFFFFF000) (Z.shiftl rd 7)) opcode.

Definition j_type (imm rd opcode : Z) : Z :=
  let imm20 := Z.land (Z.shiftr imm 20) 1 in
  let imm10_1 := Z.land (Z.shiftr imm 1) 0x3FF in
  let imm11 := Z.land (Z.shiftr imm 11) 1 in
  let imm19_12 := Z.land (Z.shiftr imm 12) 0xFF in
  Z.lor (Z.lor (Z.lor (Z.lor (Z.lor
    (Z.shiftl imm20 31) (Z.shiftl imm10_1 21)) (Z.shiftl imm11 20))
    (Z.shiftl imm19_12 12)) (Z.shiftl rd 7)) opcode.

(** *** Register aliases (lines 34-36) *)

Definition x0 := 0.
Definition x1 := 1.
Definition x2 := 2.
Definition x3 := 3.
Definition x4 := 4.
Definition x5 := 5.
Definition x6 := 6.
Definition x7 := 7.
Definition x8 := 8.
Definition x9 := 9.
Definition x10 := 10.
Definition x11 := 11.
Definition x12 := 12.
Definition x13 := 13.
Definition x14 := 14.
Definition x15 := 15.
Definition x16 := 16.
Definition x17 := 17.
Definition x18 := 18.
Definition x19 := 19.
Definition x20 := 20.
Definition x21 := 21.
Definition x22 := 22.
Definition x23 := 23.

(** *** Mnemonic wrappers (lines 38-68) *)

Definition addi (rd rs1 imm : Z) := i_type imm rs1 0 rd 0x13.
Definition add (rd rs1 rs2 : Z) := r_type 0x00 rs2 rs1 0 rd 0x33.
Definition sub (rd rs1 rs2 : Z) := r_type 0x20 rs2 rs1 0 rd 0x33.
Definition andi (rd rs1 imm : Z) := i_type imm rs1 7 rd 0x13.
Definition ori (rd rs1 imm : Z) := i_type imm rs1 6 rd 0x13.
Definition xori (rd rs1 imm : Z) := i_type imm rs1 4 rd 0x13.
Definition slli (rd rs1 shamt : Z) := i_type shamt rs1 1 rd 0x13.
Definition srli (rd rs1 shamt : Z) := i_type shamt rs1 5 rd 0x13.
Definition srai (rd rs1 shamt : Z) := i_type (Z.lor 0x400 shamt) rs1 5 rd 0x13.
Definition slti (rd rs1 imm : Z) := i_type imm rs1 2 rd 0x13.
Definition slt (rd rs1 rs2 : Z) := r_type 0x00 rs2 rs1 2 rd 0x33.
Definition lui (rd imm : Z) := u_type imm rd 0x37.
Definition auipc (rd imm : Z) := u_type imm rd 0x17.
Definition sw (rs2 offset rs1 : Z) := s_type offset rs2 rs1 2 0x23.
Definition sh (rs2 offset rs1 : Z) := s_type offset rs2 rs1 1 0x23.
Definition sb (rs2 offset rs1 : Z) := s_type offset rs2 rs1 0 0x23.
Definition lw (rd offset rs1 : Z) := i_type offset rs1 2 rd 0x03.
Definition lh (rd offset rs1 : Z) := i_type offset rs1 1 rd 0x03.
Definition lb (rd offset rs1 : Z) := i_type offset rs1 0 rd 0x03.
Definition lbu (rd offset rs1 : Z) := i_type offset rs1 4 rd 0x03.
Definition lhu (rd offset rs1 : Z) := i_type offset rs1 5 rd 0x03.
Definition beq (rs1 rs2 off : Z) := b_type off rs2 rs1 0 0x63.
Definition bne (rs1 rs2 off : Z) := b_type off rs2 rs1 1 0x63.
Definition blt (rs1 rs2 off : Z) := b_type off rs2 rs1 4 0x63.
Definition bge (rs1 rs2 off : Z) := b_type off rs2 rs1 5 0x63.
Definition jal (rd off : Z) := j_type off rd 0x6F.
Definition jalr (rd rs1 off : Z) := i_type off rs1 0 rd 0x67.
Definition ecall : Z := 0x00000073.
Definition nop : Z := addi x0 x0 0.
Definition csrrw (rd csr rs1 : Z) :=
  Z.lor (Z.lor (Z.lor (Z.lor
    (Z.shiftl csr 20) (Z.shiftl rs1 15)) (Z.shiftl 1 12)) (Z.shiftl rd 7)) 0x73.
Definition csrrs (rd csr rs1 : Z) :=
  Z.lor (Z.lor (Z.lor (Z.lor
    (Z.shiftl csr 20) (Z.shiftl rs1 15)) (Z.shiftl 2 12)) (Z.shiftl rd 7)) 0x73.

(** *** The program literal (lines 70-139) *)

Definition program_literal : list Z := [
  (* ALU tests *)
  addi x1 x0 42;
  addi x2 x0 10;
  add x3 x1 x2;
  sub x4 x1 x2;
  andi x5 x3 0xFF;
  ori x6 x0 0x55;
  xori x7 x6 0xFF;
  slli x8 x2 4;
  srli x9 x8 2;
  slti x18 x4 100;
  slt x19 x2 x1;
  (* load/store tests *)
  lui x10 0x10000000;
  sw x3 0 x10;
  lw x11 0 x10;
  sb x6 4 x10;
  lbu x12 4 x10;
  (* GPIO test *)
  lui x13 0x20000000;
  addi x14 x0 0xFF;
  sw x14 8 x13;
  sw x3 0 x13;
  (* branch tests *)
  beq x11 x3 8;
  addi x15 x0 0xDE;
  addi x15 x0 1;
  bne x1 x2 8;
  addi x15 x0 0xDE;
  addi x15 x0 2;
  (* JAL / JALR tests *)
  jal x16 8;
  addi x17 x0 0xDE;
  addi x17 x0 3;
  jalr x20 x16 0;
  (* UART setup *)
  lui x20 0x20000000;
  addi x20 x20 0x10C;
  addi x21 x0 8;
  sw x21 0 x20;
  lui x20 0x20000000;
  addi x20 x20 0x100;
  addi x22 x0 0x48;
  sw x22 0 x20;
  (* wait loop *)
  addi x23 x0 100;
  addi x23 x23 (-1);
  bne x23 x0 (-4);
  (* AUIPC test *)
  auipc x20 0x00000000;
  (* CSR test *)
  csrrs x21 0xB00 x0;
  (* done: ECALL then spin *)
  ecall;
  nop;
  jal x0 (-4)
].

(** *** The patch (line 144): [program[18] = jalr(x20, x16, 12)] *)

Definition patch_index : Z := 18.

Definition program : outcome (list Z) :=
  list_setitem program_literal patch_index (jalr x20 x16 12).

(** *** The serialization loop (lines 146-148)

    The file is opened with mode ["w"], so it starts empty; [f.write]
    appends its argument. *)

Definition write (f : string) (s : string) : string := String.append f s.

Definition hex_line (instr : Z) : string :=
  String.append (format_08X (Z.land instr 0xFFFFFFFF)) (String newline EmptyString).

Fixpoint write_program (f : string) (prog : list Z) : string :=
  match prog with
  | [] => f
  | instr :: rest => write_program (write f (hex_line instr)) rest
  end.

Definition firmware_hex (prog : list Z) : string :=
  write_program EmptyString prog.

End Firmware.

Import Firmware.

(** ** Part II.  The bit layout of the six formats, read back

    The source has no decoder.  The definitions of this module follow the
    words of the specification (its data model and the table of bit layouts,
    MSB to LSB) and are what the encoders of Part I are compared with. *)

Module Layout.

(** The field occupying bits [hi .. lo] of a word. *)
Definition bits (w hi lo : Z) : Z :=
  Z.land (Z.shiftr w lo) (Z.ones (hi - lo + 1)).

(** Two's-complement reading of a [width]-bit field. *)
Definition sign_extend (width x : Z) : Z :=
  if Z.testbit x (width - 1) then x - 2 ^ width else x.

Definition opcode_of (w : Z) : Z := bits w 6 0.
Definition rd_of (w : Z) : Z := bits w 11 7.
Definition funct3_of (w : Z) : Z := bits w 14 12.
Definition rs1_of (w : Z) : Z := bits w 19 15.
Definition rs2_of (w : Z) : Z := bits w 24 20.
Definition funct7_of (w : Z) : Z := bits w 31 25.

(** I: imm(12) | rs1 | funct3 | rd | opcode. *)
Definition i_imm_raw (w : Z) : Z := bits w 31 20.
Definition i_imm (w : Z) : Z := sign_extend 12 (i_imm_raw w).

(** S: imm11-5(7) | rs2 | rs1 | funct3 | imm4-0(5) | opcode. *)
Definition s_imm_raw (w : Z) : Z :=
  Z.lor (Z.shiftl (bits w 31 25) 5) (bits w 11 7).
Definition s_imm (w : Z) : Z := sign_extend 12 (s_imm_raw w).

(** B: imm[12] | imm[10:5] | rs2 | rs1 | funct3 | imm[4:1] | imm[11] | opcode;
    bit 0 of the immediate is not stored and reads as zero. *)
Definition b_imm_raw (w : Z) : Z :=
  Z.lor (Z.lor (Z.lor
    (Z.shiftl (bits w 31 31) 12) (Z.shiftl (bits w 7 7) 11))
    (Z.shiftl (bits w 30 25) 5)) (Z.shiftl (bits w 11 8) 1).
Definition b_imm (w : Z) : Z := sign_extend 13 (b_imm_raw w).

(** U: imm[31:12] | rd | opcode; the immediate is kept pre-shifted. *)
Definition u_imm (w : Z) : Z := Z.shiftl (bits w 31 12) 12.

(** J: imm[20] | imm[10:1] | imm[11] | imm[19:12] | rd | opcode;
    bit 0 of the immediate is not stored and reads as zero. *)
Definition j_imm_raw (w : Z) : Z :=
  Z.lor (Z.lor (Z.lor
    (Z.shiftl (bits w 31 31) 20) (Z.shiftl (bits w 19 12) 12))
    (Z.shiftl (bits w 20 20) 11)) (Z.shiftl (bits w 30 21) 1).
Definition j_imm (w : Z) : Z := sign_extend 21 (j_imm_raw w).

(** A symbolic instruction: the format tag with the operands that produce
    the word, in the argument order of the format encoders. *)
Inductive instr : Type :=
| InsR (funct7 rs2 rs1 funct3 rd opcode : Z)
| InsI (imm rs1 funct3 rd opcode : Z)
| InsS (imm rs2 rs1 funct3 opcode : Z)
| InsB (imm rs2 rs1 funct3 opcode : Z)
| InsU (imm rd opcode : Z)
| InsJ (imm rd opcode : Z).

Inductive format : Type := FR | FI | FS | FB | FU | FJ.

Definition format_of (ins : instr) : format :=
  match ins with
  | InsR _ _ _ _ _ _ => FR
  | InsI _ _ _ _ _ => FI
  | InsS _ _ _ _ _ => FS
  | InsB _ _ _ _ _ => FB
  | InsU _ _ _ => FU
  | InsJ _ _ _ => FJ
  end.

(** Encoding goes through the source's format encoders. *)
Definition encode (ins : instr) : Z :=
  match ins with
  | InsR funct7 rs2 rs1 funct3 rd opcode => Firmware.r_type funct7 rs2 rs1 funct3 rd opcode
  | InsI imm rs1 funct3 rd opcode => Firmware.i_type imm rs1 funct3 rd opcode
  | InsS imm rs2 rs1 funct3 opcode => Firmware.s_type imm rs2 rs1 funct3 opcode
  | InsB imm rs2 rs1 funct3 opcode => Firmware.b_type imm rs2 rs1 funct3 opcode
  | InsU imm rd opcode => Firmware.u_type imm rd opcode
  | InsJ imm rd opcode => Firmware.j_type imm rd opcode
  end.

(** Decoding extracts every field of the format from the word. *)
Definition decode (f : format) (w : Z) : instr :=
  match f with
  | FR => InsR (funct7_of w) (rs2_of w) (rs1_of w) (funct3_of w) (rd_of w) (opcode_of w)
  | FI => InsI (i_imm w) (rs1_of w) (funct3_of w) (rd_of w) (opcode_of w)
  | FS => InsS (s_imm w) (rs2_of w) (rs1_of w) (funct3_of w) (opcode_of w)
  | FB => InsB (b_imm w) (rs2_of w) (rs1_of w) (funct3_of w) (opcode_of w)
  | FU => InsU (u_imm w) (rd_of w) (opcode_of w)
  | FJ => InsJ (j_imm w) (rd_of w) (opcode_of w)
  end.

(** Operand domains. *)
Definition is_reg (r : Z) : Prop := 0 <= r < 32.
Definition is_funct3 (f : Z) : Prop := 0 <= f < 8.
Definition is_funct7 (f : Z) : Prop := 0 <= f < 128.
Definition is_opcode (o : Z) : Prop := 0 <= o < 128.
Definition is_csr (c : Z) : Prop := 0 <= c < 4096.
Definition is_shamt (s : Z) : Prop := 0 <= s < 32.

(** Immediates that a field can represent. *)
Definition imm12 (imm : Z) : Prop := - 2048 <= imm < 2048.
Definition imm13_even (imm : Z) : Prop := - 4096 <= imm < 4096 /\ Z.even imm = true.
Definition imm21_even (imm : Z) : Prop := - 1048576 <= imm < 1048576 /\ Z.even imm = true.
Definition imm_upper20 (imm : Z) : Prop := Z.land imm 0xFFFFF000 = imm.

(** An instruction all of whose operands lie in the domain of their field. *)
Definition legal (ins : instr) : Prop :=
  match ins with
  | InsR funct7 rs2 rs1 funct3 rd opcode =>
      is_funct7 funct7 /\ is_reg rs2 /\ is_reg rs1 /\ is_funct3 funct3 /\
      is_reg rd /\ is_opcode opcode
  | InsI imm rs1 funct3 rd opcode =>
      imm12 imm /\ is_reg rs1 /\ is_funct3 funct3 /\ is_reg rd /\ is_opcode opcode
  | InsS imm rs2 rs1 funct3 opcode =>
      imm12 imm /\ is_reg rs2 /\ is_reg rs1 /\ is_funct3 funct3 /\ is_opcode opcode
  | InsB imm rs2 rs1 funct3 opcode =>
      imm13_even imm /\ is_reg rs2 /\ is_reg rs1 /\ is_funct3 funct3 /\ is_opcode opcode
  | InsU imm rd opcode => imm_upper20 imm /\ is_reg rd /\ is_opcode opcode
  | InsJ imm rd opcode => imm21_even imm /\ is_reg rd /\ is_opcode opcode
  end.

(** A value that fits 32 bits unsigned. *)
Definition word32 (w : Z) : Prop := 0 <= w < 2 ^ 32.

(** A word the serializer's [& 0xFFFFFFFF] leaves as it is. *)
Definition unchanged_by_mask (w : Z) : Prop :=
  word32 w /\ Z.land w 0xFFFFFFFF = w.

(** The result of every format encoder and of every mnemonic wrapper of the
    source, at the given operands. *)
Definition all_encodings (rd rs1 rs2 funct3 funct7 opcode csr shamt imm : Z) : list Z :=
  [ Firmware.r_type funct7 rs2 rs1 funct3 rd opcode;
    Firmware.i_type imm rs1 funct3 rd opcode;
    Firmware.s_type imm rs2 rs1 funct3 opcode;
    Firmware.b_type imm rs2 rs1 funct3 opcode;
    Firmware.u_type imm rd opcode;
    Firmware.j_type imm rd opcode;
    Firmware.addi rd rs1 imm;
    Firmware.add rd rs1 rs2;
    Firmware.sub rd rs1 rs2;
    Firmware.andi rd rs1 imm;
    Firmware.ori rd rs1 imm;
    Firmware.xori rd rs1 imm;
    Firmware.slli rd rs1 shamt;
    Firmware.srli rd rs1 shamt;
    Firmware.srai rd rs1 shamt;
    Firmware.slti rd rs1 imm;
    Firmware.slt rd rs1 rs2;
    Firmware.lui rd imm;
    Firmware.auipc rd imm;
    Firmware.sw rs2 imm rs1;
    Firmware.sh rs2 imm rs1;
    Firmware.sb rs2 imm rs1;
    Firmware.lw rd imm rs1;
    Firmware.lh rd imm rs1;
    Firmware.lb rd imm rs1;
    Firmware.lbu rd imm rs1;
    Firmware.lhu rd imm rs1;
    Firmware.beq rs1 rs2 imm;
    Firmware.bne rs1 rs2 imm;
    Firmware.blt rs1 rs2 imm;
    Firmware.bge rs1 rs2 imm;
    Firmware.jal rd imm;
    Firmware.jalr rd rs1 imm;
    Firmware.ecall;
    Firmware.nop;
    Firmware.csrrw rd csr rs1;
    Firmware.csrrs rd csr rs1 ].

End Layout.

Import Layout.

(** ** Part III.  cocotb/test_brv32p_soc.py *)

Module Testbench.

(** The state of the device under test at one instant, as far as the
    waiters look at it: [regs st idx] is the result of
    [int(dut.u_core.u_regfile.regs[idx].value)], which raises when the path
    does not resolve, the index is out of range, or the value is not a
    resolvable integer. *)
Record dut_state : Type := { regs : Z -> outcome Z }.

(** The handle [dut] names a live simulation: [dut t] is the state of the
    device once [t] rising clock edges have passed. *)
Definition dut_handle : Type := nat -> dut_state.

(** What a coroutine of the testbench can change: the number of rising
    edges the simulation has gone through, and the messages handed to
    [dut._log]. *)
Record sim : Type := { edges : nat; log : list string }.

(** Coroutines: state passing over [sim], with a result or an exception. *)
Definition M (A : Type) : Type := sim -> outcome A * sim.

Definition ret {A : Type} (a : A) : M A := fun s => (Ret a, s).

Definition bind {A B : Type} (m : M A) (k : A -> M B) : M B :=
  fun s =>
    match m s with
    | (Ret a, s') => k a s'
    | (Raise e, s') => (Raise e, s')
    end.

Notation "'let*' x ':=' m 'in' k" := (bind m (fun x => k))
  (at level 10, x name, m at level 100, k at level 200).
Notation "'run' m 'then' k" := (bind m (fun _ => k))
  (at level 10, m at level 100, k at level 200).

(** The simulation one rising edge later. *)
Definition tick (s : sim) : sim := {| edges := S (edges s); log := log s |}.

(** [await RisingEdge(dut.clk)]: the coroutine resumes one edge later. *)
Definition await_RisingEdge : M unit := fun s => (Ret tt, tick s).

(** [dut._log.warning(msg)]. *)
Definition log_warning (msg : string) : M unit :=
  fun s => (Ret tt, {| edges := edges s; log := log s ++ [msg] |}).

(** [get_reg] (lines 22-25), applied to the state the handle shows now. *)
Definition get_reg (st : dut_state) (idx : Z) : outcome Z :=
  if idx =? 0 then Ret 0 else regs st idx.

(** Evaluation of an expression over the present state of the device. *)
Definition now {A : Type} (dut : dut_handle) (f : dut_state -> outcome A) : M A :=
  fun s => (f (dut (edges s)), s).

(** [try: e except Exception: pass], keeping whether [e] raised. *)
Definition try_pass {A : Type} (m : M A) : M (option A) :=
  fun s =>
    match m s with
    | (Ret a, s') => (Ret (Some a), s')
    | (Raise _, s') => (Ret None, s')
    end.

(** The [for _ in range(timeout)] loop of [wait_reg] (lines 30-36), for the
    iterations that remain; [true] when the body returned [True], [false]
    when the loop ran out. *)
Fixpoint wait_reg_loop (dut : dut_handle) (idx val : Z) (remaining : nat) : M bool :=
  match remaining with
  | O => ret false
  | S remaining' =>
      run await_RisingEdge then
      let* r := try_pass (now dut (fun st => get_reg st idx)) in
      match r with
      | Some v => if v =? val then ret true else wait_reg_loop dut idx val remaining'
      | None => wait_reg_loop dut idx val remaining'
      end
  end.

(** The message of line 37. *)
Definition timeout_message (idx val : Z) : string :=
  String.append "Timeout waiting for x"
    (String.append (str idx) (String.append " = 0x" (format_08X val))).

(** [wait_reg] (lines 28-38); [range(timeout)] is empty for [timeout <= 0]. *)
Definition wait_reg (dut : dut_handle) (idx val : Z) (timeout : Z) : M bool :=
  let* found := wait_reg_loop dut idx val (Z.to_nat timeout) in
  if found then ret true
  else run log_warning (timeout_message idx val) then ret false.

(** The loop of [wait_reg_nonzero] (lines 43-49). *)
Fixpoint wait_reg_nonzero_loop (dut : dut_handle) (idx : Z) (remaining : nat) : M bool :=
  match remaining with
  | O => ret false
  | S remaining' =>
      run await_RisingEdge then
      let* r := try_pass (now dut (fun st => get_reg st idx)) in
      match r with
      | Some v => if negb (v =? 0) then ret true else wait_reg_nonzero_loop dut idx remaining'
      | None => wait_reg_nonzero_loop dut idx remaining'
      end
  end.

(** [wait_reg_nonzero] (lines 41-50). *)
Definition wait_reg_nonzero (dut : dut_handle) (idx : Z) (timeout : Z) : M bool :=
  wait_reg_nonzero_loop dut idx (Z.to_nat timeout).

End Testbench.

Import Testbench.

(** ** Part IV.  The firmware image format, as the specification words it

    Plain text, one line per 32-bit word, each line exactly 8 uppercase
    hexadecimal digits.  These definitions say what a line of a text is and
    what a run of hexadecimal digits denotes; the serializer of Part I is
    compared with them. *)

Module HexFile.

(** The lines of a text: every newline ends a line; characters after the
    last newline, if any, form a last line. *)
Fixpoint lines_from (cur : string) (s : string) : list string :=
  match s with
  | EmptyString =>
      match cur with
      | EmptyString => []
      | _ => [cur]
      end
  | String c rest =>
      if Ascii.eqb c newline then cur :: lines_from EmptyString rest
      else lines_from (String.append cur (String c EmptyString)) rest
  end.

Definition lines (s : string) : list string := lines_from EmptyString s.

(** The value of an uppercase hexadecimal digit, from its code point:
    ["0"] to ["9"] are 48 to 57, ["A"] to ["F"] are 65 to 70. *)
Definition hex_digit_value (c : ascii) : option Z :=
  let code := Z.of_N (N_of_ascii c) in
  if (48 <=? code) && (code <=? 57) then Some (code - 48)
  else if (65 <=? code) && (code <=? 70) then Some (code - 55)
  else None.

Definition is_upper_hex (c : ascii) : bool :=
  match hex_digit_value c with
  | Some _ => true
  | None => false
  end.

Fixpoint all_upper_hex (s : string) : bool :=
  match s with
  | EmptyString => true
  | String c rest => is_upper_hex c && all_upper_hex rest
  end.

(** The number a run of uppercase hexadecimal digits denotes, most
    significant digit first, continuing from [acc]. *)
Fixpoint hex_value_from (acc : Z) (s : string) : option Z :=
  match s with
  | EmptyString => Some acc
  | String c rest =>
      match hex_digit_value c with
      | Some d => hex_value_from (acc * 16 + d) rest
      | None => None
      end
  end.

Definition hex_value (s : string) : option Z := hex_value_from 0 s.

(** The [k] least significant hexadecimal digits of [z], most significant
    first, in front of [acc]. *)
Fixpoint hex_fixed (k : nat) (z : Z) (acc : string) : string :=
  match k with
  | O => acc
  | S k' => hex_fixed k' (z / 16) (String (hex_digit (z mod 16)) acc)
  end.

(** A well-formed line of the image. *)
Definition image_line (line : string) : Prop :=
  String.length line = 8%nat /\ all_upper_hex line = true.

(** The text made of the given lines, each followed by a newline. *)
Fixpoint unlines (ls : list string) : string :=
  match ls with
  | [] => EmptyString
  | l :: rest => String.append l (String newline (unlines rest))
  end.

End HexFile.

Import HexFile.

(** ** Concrete simulations used as examples *)

Module Fixtures.

(** A simulation that has not started, with nothing logged. *)
Definition fresh : sim := {| edges := 0; log := [] |}.

(** Every register holds 52 at all times, also before the first edge. *)
Definition dut_all_52 : dut_handle := fun _ => {| regs := fun _ => Ret 52 |}.

(** Registers read 7 after an even number of edges and cannot be read
    (unresolved value) after an odd number. *)
Definition dut_flaky_7 : dut_handle :=
  fun t => {| regs := fun _ => if Nat.even t then Ret 7 else Raise ValueError |}.

(** Registers read 0 after an even number of edges and cannot be read after
    an odd number. *)
Definition dut_flaky_0 : dut_handle :=
  fun t => {| regs := fun _ => if Nat.even t then Ret 0 else Raise ValueError |}.

End Fixtures.

Import Fixtures.

(** ** More concrete simulations *)

Module MoreFixtures.

(** Every register reads the number of edges that have passed. *)
Definition dut_counting : dut_handle :=
  fun t => {| regs := fun _ => Ret (Z.of_nat t) |}.

(** No register can be read at any time. *)
Definition dut_unreadable : dut_handle :=
  fun _ => {| regs := fun _ => Raise AttributeError |}.

End MoreFixtures.

Import MoreFixtures.

(** ** Part V.  What a decoder dispatches on, and reading an image back

    Like Parts II and IV, these definitions are not in the source: they are
    the reader's side of what the generator writes. *)

Module Reader.

(** The words of the mnemonic wrappers of the source (lines 38-68), each
    with the opcode its definition passes or writes.  [nop] is left out:
    it is [addi(x0, x0, 0)]. *)
Definition mnemonic_words (rd rs1 rs2 csr shamt imm : Z) : list (Z * Z) :=
  [ (Firmware.addi rd rs1 imm, 0x13);
    (Firmware.add rd rs1 rs2, 0x33);
    (Firmware.sub rd rs1 rs2, 0x33);
    (Firmware.andi rd rs1 imm, 0x13);
    (Firmware.ori rd rs1 imm, 0x13);
    (Firmware.xori rd rs1 imm, 0x13);
    (Firmware.slli rd rs1 shamt, 0x13);
    (Firmware.srli rd rs1 shamt, 0x13);
    (Firmware.srai rd rs1 shamt, 0x13);
    (Firmware.slti rd rs1 imm, 0x13);
    (Firmware.slt rd rs1 rs2, 0x33);
    (Firmware.lui rd imm, 0x37);
    (Firmware.auipc rd imm, 0x17);
    (Firmware.sw rs2 imm rs1, 0x23);
    (Firmware.sh rs2 imm rs1, 0x23);
    (Firmware.sb rs2 imm rs1, 0x23);
    (Firmware.lw rd imm rs1, 0x03);
    (Firmware.lh rd imm rs1, 0x03);
    (Firmware.lb rd imm rs1, 0x03);
    (Firmware.lbu rd imm rs1, 0x03);
    (Firmware.lhu rd imm rs1, 0x03);
    (Firmware.beq rs1 rs2 imm, 0x63);
    (Firmware.bne rs1 rs2 imm, 0x63);
    (Firmware.blt rs1 rs2 imm, 0x63);
    (Firmware.bge rs1 rs2 imm, 0x63);
    (Firmware.jal rd imm, 0x6F);
    (Firmware.jalr rd rs1 imm, 0x67);
    (Firmware.ecall, 0x73);
    (Firmware.csrrw rd csr rs1, 0x73);
    (Firmware.csrrs rd csr rs1, 0x73) ].

(** The key an RV32I decoder tells instructions apart by: the opcode; for
    all but the U and J formats also funct3; and bit 30 for the register
    operations and the immediate shifts. *)
Definition signature_from (opcode funct3 bit30 : Z) : Z * Z * Z :=
  if (opcode =? 0x37) || (opcode =? 0x17) || (opcode =? 0x6F) then (opcode, 0, 0)
  else if (opcode =? 0x33) || ((opcode =? 0x13) && ((funct3 =? 1) || (funct3 =? 5)))
       then (opcode, funct3, bit30)
  else (opcode, funct3, 0).

Definition signature (w : Z) : Z * Z * Z :=
  signature_from (opcode_of w) (funct3_of w) (bits w 30 30).

(** The signatures of the thirty mnemonics, in the order of
    [mnemonic_words]. *)
Definition signature_table : list (Z * Z * Z) :=
  [ (0x13, 0, 0); (0x33, 0, 0); (0x33, 0, 1); (0x13, 7, 0); (0x13, 6, 0);
    (0x13, 4, 0); (0x13, 1, 0); (0x13, 5, 0); (0x13, 5, 1); (0x13, 2, 0);
    (0x33, 2, 0); (0x37, 0, 0); (0x17, 0, 0); (0x23, 2, 0); (0x23, 1, 0);
    (0x23, 0, 0); (0x03, 2, 0); (0x03, 1, 0); (0x03, 0, 0); (0x03, 4, 0);
    (0x03, 5, 0); (0x63, 0, 0); (0x63, 1, 0); (0x63, 4, 0); (0x63, 5, 0);
    (0x6F, 0, 0); (0x67, 0, 0); (0x73, 0, 0); (0x73, 1, 0); (0x73, 2, 0) ].

(** Reading the lines of an image as numbers; [None] if a line is not made
    of uppercase hexadecimal digits. *)
Fixpoint read_words (ls : list string) : option (list Z) :=
  match ls with
  | [] => Some []
  | line :: rest =>
      match hex_value line, read_words rest with
      | Some w, Some ws => Some (w :: ws)
      | _, _ => None
      end
  end.

Definition read_image (text : string) : option (list Z) := read_words (lines text).

End Reader.

Import Reader.

(** ** Part VI.  firmware/gen_firmware.py, the console report (lines 150-152) *)

Module Report.

Local Open Scope string_scope.
Local Open Scope list_scope.
Local Open Scope Z_scope.

(** [format(z, "04X")]. *)
Definition format_04X (z : Z) : string :=
  if z <? 0 then String "-"%char (zfill 3 (hex_upper (- z)))
  else zfill 4 (hex_upper z).

(** [enumerate(l)], counting from [i]. *)
Fixpoint enumerate_from (i : Z) (l : list Z) : list (Z * Z) :=
  match l with
  | [] => []
  | x :: rest => (i, x) :: enumerate_from (i + 1) rest
  end.

Definition header (prog : list Z) : string :=
  String.append "Generated "
    (String.append (str (Z.of_nat (length prog))) " instructions").

Definition dump_line (i instr : Z) : string :=
  String.append "  0x"
    (String.append (format_04X (i * 4))
       (String.append ": " (format_08X (Z.land instr 0xFFFFFFFF)))).

(** The lines handed to [print], in order. *)
Definition stdout (prog : list Z) : list string :=
  header prog :: map (fun entry => dump_line (fst entry) (snd entry)) (enumerate_from 0 prog).

End Report.

Import Report.

(** ** Part VII.  cocotb/test_brv32p_soc.py, the reset sequence and the tests

    Strings are sequences of bytes; the dash of two log messages is its
    three UTF-8 bytes. *)

Module Scenarios.

Local Open Scope string_scope.
Local Open Scope list_scope.
Local Open Scope Z_scope.

(** The state of the whole device at one instant, as far as the tests look
    at it.  Every field is the result of [int(<path>.value)] for its path,
    which raises when the path does not resolve or the value is not a
    resolvable integer. *)
Record soc_state : Type := {
  regfile : dut_state;               (* dut.u_core.u_regfile.regs[idx] *)
  pc_if : outcome Z;                 (* dut.u_core.pc_if *)
  bht : Z -> outcome Z;              (* dut.u_core.u_bp.bht[i] *)
  valid_mem : Z -> Z -> outcome Z;   (* dut.u_icache.valid_mem[s][w] *)
  gpio_in_sync : outcome Z;          (* dut.u_gpio.gpio_in_sync *)
  mcycle : outcome Z;                (* dut.u_core.u_csr.mcycle *)
  minstret : outcome Z               (* dut.u_core.u_csr.minstret *)
}.

(** The handle [dut]: the state of the device after each number of edges. *)
Definition soc_handle : Type := nat -> soc_state.

(** The part of the handle the waiters use. *)
Definition regs_of (dut : soc_handle) : dut_handle := fun t => regfile (dut t).

(** The inputs the testbench drives: the value last assigned to each, or
    [None] while it has not assigned one. *)
Record pins : Type := {
  rst_n : option Z;
  gpio_in : option Z;
  uart_rx : option Z
}.

(** The testbench: the simulation, the inputs as last assigned, and for
    every edge gone through since the record was started the inputs that
    were in force when it came. *)
Record bench : Type := {
  clk : sim;
  driven : pins;
  seen : list pins
}.

(** How a test can end early: a failed [assert], or another exception that
    nothing catches. *)
Inductive abort : Type :=
| AssertionError (msg : string)
| Uncaught (e : exn).

Inductive verdict (A : Type) : Type :=
| Done (a : A)
| Abort (f : abort).

Arguments Done {A} a.
Arguments Abort {A} f.

(** Test coroutines. *)
Definition T (A : Type) : Type := bench -> verdict A * bench.

Definition retT {A : Type} (a : A) : T A := fun b => (Done a, b).

Definition bindT {A B : Type} (m : T A) (k : A -> T B) : T B :=
  fun b =>
    match m b with
    | (Done a, b') => k a b'
    | (Abort f, b') => (Abort f, b')
    end.

Notation "'let!' x ':=' m 'in' k" := (bindT m (fun x => k))
  (at level 10, x name, m at level 100, k at level 200).
Notation "'perform' m 'then' k" := (bindT m (fun _ => k))
  (at level 10, m at level 100, k at level 200).

(** The testbench once the simulation has moved on to [c']: the inputs
    stayed as they were for every edge passed. *)
Definition advance (c' : sim) (b : bench) : bench :=
  {| clk := c';
     driven := driven b;
     seen := seen b ++ replicate (edges c' - edges (clk b)) (driven b) |}.

(** A coroutine of Part III run inside a test; what it raises is not
    caught. *)
Definition liftM {A : Type} (m : M A) : T A :=
  fun b =>
    match m (clk b) with
    | (Ret a, c') => (Done a, advance c' b)
    | (Raise e, c') => (Abort (Uncaught e), advance c' b)
    end.

(** [dut.rst_n.value = v], [dut.gpio_in.value = v], [dut.uart_rx.value = v]. *)
Definition set_rst_n (v : Z) : T unit :=
  fun b => (Done tt, {| clk := clk b;
                        driven := {| rst_n := Some v; gpio_in := gpio_in (driven b);
                                     uart_rx := uart_rx (driven b) |};
                        seen := seen b |}).

Definition set_gpio_in (v : Z) : T unit :=
  fun b => (Done tt, {| clk := clk b;
                        driven := {| rst_n := rst_n (driven b); gpio_in := Some v;
                                     uart_rx := uart_rx (driven b) |};
                        seen := seen b |}).

Definition set_uart_rx (v : Z) : T unit :=
  fun b => (Done tt, {| clk := clk b;
                        driven := {| rst_n := rst_n (driven b); gpio_in := gpio_in (driven b);
                                     uart_rx := Some v |};
                        seen := seen b |}).

(** [await ClockCycles(dut.clk, n)] for [n >= 1]: the coroutine resumes at
    the [n]-th rising edge.  (What the trigger does for [n <= 0] is the
    library's business; every statement about it below has [1 <= n].) *)
Fixpoint clock_cycles (n : nat) : M unit :=
  match n with
  | O => ret tt
  | S n' => run await_RisingEdge then clock_cycles n'
  end.

Definition await_ClockCycles (n : Z) : T unit := liftM (clock_cycles (Z.to_nat n)).

(** [dut._log.info(msg)]. *)
Definition log_info (msg : string) : T unit :=
  liftM (fun s => (Ret tt, {| edges := edges s; log := log s ++ [msg] |})).

(** An expression over the present state of the device. *)
Definition read_now {A : Type} (dut : soc_handle) (f : soc_state -> outcome A) : T A :=
  liftM (fun s => (f (dut (edges s)), s)).

(** [assert cond, msg]. *)
Definition assert_that (cond : bool) (msg : string) : T unit :=
  fun b => if cond then (Done tt, b) else (Abort (AssertionError msg), b).

(** [clock = Clock(dut.clk, 10, units="ns"); cocotb.start_soon(clock.start())]:
    from here on the clock runs; its edges are those the simulation counts. *)
Definition start_clock : T unit := retT tt.

(** [range(n)]. *)
Definition range (n : nat) : list Z := map Z.of_nat (seq 0 n).

(** [format(z, "02X")]. *)
Definition format_02X (z : Z) : string :=
  if z <? 0 then String "-"%char (zfill 1 (hex_upper (- z)))
  else zfill 2 (hex_upper z).

Definition cat (parts : list string) : string :=
  fold_right String.append EmptyString parts.

(** [reset_dut] (lines 13-19). *)
Definition reset_dut (cycles : Z) : T unit :=
  perform set_rst_n 0 then
  perform set_gpio_in 0 then
  perform set_uart_rx 1 then
  perform await_ClockCycles cycles then
  perform set_rst_n 1 then
  liftM await_RisingEdge.

(** [test_01_reset] (lines 56-66). *)
Definition test_01_reset (dut : soc_handle) : T unit :=
  perform start_clock then
  perform set_rst_n 0 then
  perform set_gpio_in 0 then
  perform set_uart_rx 1 then
  perform await_ClockCycles 10 then
  let! pc := read_now dut pc_if in
  perform assert_that (pc =? 0) (cat ["Reset PC = 0x"; format_08X pc]) then
  log_info "PASS: Reset PC = 0x00000000".

(** The table of [test_02_alu_pipeline] (lines 80-84). *)
Definition checks : list (Z * Z * string) :=
  [ (1, 42, "ADDI"); (2, 10, "ADDI"); (3, 52, "ADD");
    (4, 32, "SUB"); (5, 52, "ANDI"); (6, 0x55, "ORI");
    (7, 0xAA, "XORI"); (8, 160, "SLLI"); (9, 40, "SRLI") ].

(** The loop over the table (lines 85-88). *)
Fixpoint run_checks (dut : soc_handle) (cs : list (Z * Z * string)) : T unit :=
  match cs with
  | [] => retT tt
  | (reg, exp, name) :: rest =>
      let! val := read_now dut (fun st => get_reg (regfile st) reg) in
      perform assert_that (val =? exp)
        (cat [name; " x"; str reg; ": got "; str val; ", expected "; str exp]) then
      perform log_info (cat ["PASS: "; name; " x"; str reg; " = "; str val]) then
      run_checks dut rest
  end.

(** [test_02_alu_pipeline] (lines 70-88). *)
Definition test_02_alu_pipeline (dut : soc_handle) : T unit :=
  perform start_clock then
  perform reset_dut 10 then
  let! ok := liftM (wait_reg (regs_of dut) 3 52 50000) in
  perform assert_that ok "x3 never reached 52" then
  run_checks dut checks.

(** [test_03_forwarding] (lines 92-100). *)
Definition test_03_forwarding (dut : soc_handle) : T unit :=
  perform start_clock then
  perform reset_dut 10 then
  let! ok := liftM (wait_reg (regs_of dut) 3 52 50000) in
  perform assert_that ok "Forwarding failed: x3 != 52" then
  log_info "PASS: EX-EX forwarding verified (x3=x1+x2=52)".

(** [test_04_load_store_cache] (lines 104-116). *)
Definition test_04_load_store_cache (dut : soc_handle) : T unit :=
  perform start_clock then
  perform reset_dut 10 then
  let! ok := liftM (wait_reg (regs_of dut) 11 52 50000) in
  perform assert_that ok "LW through D-cache failed" then
  let! x11 := read_now dut (fun st => get_reg (regfile st) 11) in
  perform log_info (cat ["PASS: LW x11 = "; str x11]) then
  let! ok := liftM (wait_reg (regs_of dut) 12 0x55 50000) in
  perform assert_that ok "LBU through D-cache failed" then
  let! x12 := read_now dut (fun st => get_reg (regfile st) 12) in
  log_info (cat ["PASS: LBU x12 = 0x"; format_02X x12]).

(** [test_05_branches] (lines 120-128). *)
Definition test_05_branches (dut : soc_handle) : T unit :=
  perform start_clock then
  perform reset_dut 10 then
  let! ok := liftM (wait_reg (regs_of dut) 15 2 50000) in
  perform assert_that ok "Branch test failed" then
  let! x15 := read_now dut (fun st => get_reg (regfile st) 15) in
  log_info (cat ["PASS: Branches — x15 = "; str x15]).

(** [test_06_jal] (lines 132-141). *)
Definition test_06_jal (dut : soc_handle) : T unit :=
  perform start_clock then
  perform reset_dut 10 then
  let! ok := liftM (wait_reg (regs_of dut) 17 3 50000) in
  perform assert_that ok "JAL target not reached" then
  let! x16 := read_now dut (fun st => get_reg (regfile st) 16) in
  perform assert_that (negb (x16 =? 0)) "JAL link register is zero" then
  let! x17 := read_now dut (fun st => get_reg (regfile st) 17) in
  let! x16' := read_now dut (fun st => get_reg (regfile st) 16) in
  log_info (cat ["PASS: JAL — x17="; str x17; ", x16=0x"; format_08X x16']).

(** One iteration of the scan of the branch history table (lines 158-163):
    an entry that cannot be read is passed over. *)
Definition count_trained_step (st : soc_state) (trained : Z) (i : Z) : Z :=
  match bht st i with
  | Ret val => if negb (val =? 1) then trained + 1 else trained
  | Raise _ => trained
  end.

(** The scan (lines 156-163). *)
Definition count_trained (st : soc_state) : Z :=
  fold_left (count_trained_step st) (range 256) 0.

(** [test_07_loop_bp_training] (lines 145-165). *)
Definition test_07_loop_bp_training (dut : soc_handle) : T unit :=
  perform start_clock then
  perform reset_dut 10 then
  let! ok := liftM (wait_reg (regs_of dut) 23 0 100000) in
  perform assert_that ok "Loop did not complete" then
  perform log_info "PASS: Countdown loop x23 = 0" then
  let! trained := read_now dut (fun st => Ret (count_trained st)) in
  perform assert_that (0 <? trained) "No BHT entries trained" then
  log_info (cat ["PASS: BHT has "; str trained; " trained entries"]).

(** One iteration of the inner loop of the scan of the instruction cache
    (lines 180-184); [if int(...)] takes every nonzero value as true. *)
Definition count_valid_step (st : soc_state) (s : Z) (valid_count : Z) (w : Z) : Z :=
  match valid_mem st s w with
  | Ret val => if negb (val =? 0) then valid_count + 1 else valid_count
  | Raise _ => valid_count
  end.

(** The scan (lines 177-184). *)
Definition count_valid (st : soc_state) : Z :=
  fold_left
    (fun valid_count s => fold_left (count_valid_step st s) (range 2) valid_count)
    (range 64) 0.

(** [test_08_icache] (lines 169-187); the result of the wait is dropped. *)
Definition test_08_icache (dut : soc_handle) : T unit :=
  perform start_clock then
  perform reset_dut 10 then
  perform liftM (wait_reg (regs_of dut) 3 52 50000) then
  let! valid_count := read_now dut (fun st => Ret (count_valid st)) in
  perform assert_that (0 <? valid_count) "I-cache has no valid lines" then
  log_info (cat ["PASS: I-cache has "; str valid_count; " valid lines"]).

(** [test_09_gpio_input] (lines 191-203). *)
Definition test_09_gpio_input (dut : soc_handle) : T unit :=
  perform start_clock then
  perform reset_dut 10 then
  perform await_ClockCycles 20 then
  perform set_gpio_in 0xCAFEBABE then
  perform await_ClockCycles 5 then
  let! synced := read_now dut gpio_in_sync in
  perform assert_that (synced =? 0xCAFEBABE) (cat ["Got 0x"; format_08X synced]) then
  log_info (cat ["PASS: GPIO input sync = 0x"; format_08X synced]).

(** [test_10_csr_mcycle] (lines 207-216). *)
Definition test_10_csr_mcycle (dut : soc_handle) : T unit :=
  perform start_clock then
  perform reset_dut 10 then
  perform await_ClockCycles 100 then
  let! raw := read_now dut mcycle in
  let mcycle := Z.land raw 0xFFFFFFFF in
  perform assert_that (0 <? mcycle) (cat ["mcycle = "; str mcycle]) then
  log_info (cat ["PASS: mcycle = "; str mcycle]).

(** [test_11_load_use_stall] (lines 220-231). *)
Definition test_11_load_use_stall (dut : soc_handle) : T unit :=
  perform start_clock then
  perform reset_dut 10 then
  let! ok := liftM (wait_reg (regs_of dut) 11 52 50000) in
  perform assert_that ok "Load-use stall may have failed: x11 != 52" then
  log_info "PASS: Load-use stall correctly handled".

(** The register is first found equal to [val] at edge [t], looking at the
    [n] edges after edge [from]. *)
Definition first_match (dut : soc_handle) (idx val : Z) (from n t : nat) : Prop :=
  (from < t <= from + n)%nat /\
  get_reg (regfile (dut t)) idx = Ret val /\
  forall t' : nat, (from < t' < t)%nat -> get_reg (regfile (dut t')) idx <> Ret val.

(** The register is not found equal to [val] at any of the [n] edges after
    edge [from]. *)
Definition no_match (dut : soc_handle) (idx val : Z) (from n : nat) : Prop :=
  forall t : nat, (from < t <= from + n)%nat -> get_reg (regfile (dut t)) idx <> Ret val.



(** The inputs during and after reset. *)
Definition pins_in_reset : pins :=
  {| rst_n := Some 0; gpio_in := Some 0; uart_rx := Some 1 |}.

Definition pins_released : pins :=
  {| rst_n := Some 1; gpio_in := Some 0; uart_rx := Some 1 |}.

(** How an observation ends a test, or lets it go on. *)
Definition of_outcome {A : Type} (r : outcome A) : verdict A :=
  match r with
  | Ret a => Done a
  | Raise e => Abort (Uncaught e)
  end.

(** The testbench with one more message in the log. *)
Definition logged (msgs : list string) (b : bench) : bench :=
  {| clk := {| edges := edges (clk b); log := log (clk b) ++ msgs |};
     driven := driven b;
     seen := seen b |}.

(** What the three tests that wait and assert once have in common: with
    the register first found equal at edge [t] the test passes there, with
    its PASS message logged; with the register not found it ends in the
    [AssertionError] of its message, after the whole timeout, the waiter's
    warning logged; and one of the two is the case. *)
Definition wait_then_assert_spec
    (dut : soc_handle) (b : bench) (test : soc_handle -> T unit)
    (idx val : Z) (pass_msg fail_msg : string) : Prop :=
  let from := (edges (clk b) + 11)%nat in
  let n := Z.to_nat 50000 in
  ((exists t : nat, first_match dut idx val from n t) \/ no_match dut idx val from n) /\
  (forall t : nat, first_match dut idx val from n t ->
     exists b' : bench,
       test dut b = (Done tt, b') /\ edges (clk b') = t /\
       log (clk b') = log (clk b) ++ [pass_msg]) /\
  (no_match dut idx val from n ->
     exists b' : bench,
       test dut b = (Abort (AssertionError fail_msg), b') /\
       edges (clk b') = (from + n)%nat /\
       log (clk b') = log (clk b) ++ [timeout_message idx val]).

(** One row of the table of [test_02] holds of a state. *)
Definition check_holds (st : soc_state) (row : Z * Z * string) : Prop :=
  get_reg (regfile st) (fst (fst row)) = Ret (snd (fst row)).

(** The inputs while [test_09] holds its stimulus. *)
Definition pins_stimulus : pins :=
  {| rst_n := Some 1; gpio_in := Some 0xCAFEBABE; uart_rx := Some 1 |}.

(** The testbench once [reset_dut] has run with [n] reset cycles. *)
Definition after_reset (n : nat) (b : bench) : bench :=
  {| clk := {| edges := edges (clk b) + n + 1; log := log (clk b) |};
     driven := pins_released;
     seen := seen b ++ replicate n pins_in_reset ++ [pins_released] |}.

End Scenarios.

Import Scenarios.

(** ** Concrete devices for the tests *)

Module ScenarioFixtures.

(** The registers once the firmware has run. *)
Definition final_register (idx : Z) : Z :=
  match idx with
  | 1 => 42 | 2 => 10 | 3 => 52 | 4 => 32 | 5 => 52 | 6 => 0x55 | 7 => 0xAA
  | 8 => 160 | 9 => 40 | 11 => 52 | 12 => 0x55 | 15 => 2 | 16 => 0x6C | 17 => 3
  | _ => 0
  end.

(** A device whose registers all read 0 for the first 19 edges and their
    final values from edge 20 on; one entry of the branch history table has
    moved, one cache line is valid, and the counter counts the edges. *)
Definition soc_working : soc_handle :=
  fun t =>
    {| regfile := {| regs := fun idx => Ret (if (20 <=? t)%nat then final_register idx else 0) |};
       pc_if := Ret 0;
       bht := fun i => Ret (if i =? 7 then 3 else 1);
       valid_mem := fun s w => Ret (if (s =? 0) && (w =? 1) then 1 else 0);
       gpio_in_sync := Ret (if (36 <=? t)%nat then 0xCAFEBABE else 0);
       mcycle := Ret (Z.of_nat t);
       minstret := Ret 0 |}.

(** A device that shows nothing: every register reads 0 and nothing else
    can be read. *)
Definition soc_dead : soc_handle :=
  fun _ =>
    {| regfile := {| regs := fun _ => Ret 0 |};
       pc_if := Raise ValueError;
       bht := fun _ => Raise AttributeError;
       valid_mem := fun _ _ => Raise AttributeError;
       gpio_in_sync := Raise ValueError;
       mcycle := Raise ValueError;
       minstret := Raise ValueError |}.

(** A testbench that has not started. *)
Definition bench0 : bench :=
  {| clk := fresh;
     driven := {| rst_n := None; gpio_in := None; uart_rx := None |};
     seen := [] |}.

End ScenarioFixtures.

Import ScenarioFixtures.

(** ** Proofs *)

(** *** Bit-level reasoning *)

Lemma testbit_small (x k n : Z) :
  0 <= x < 2 ^ k -> 0 <= k <= n -> Z.testbit x n = false.
Proof.
  intros Hx Hk.
  rewrite <- (Z.mod_small x (2 ^ k)) by exact Hx.
  apply Z.mod_pow2_bits_high. exact Hk.
Qed.

Lemma testbit_shiftl (a n m : Z) :
  Z.testbit (Z.shiftl a n) m = (0 <=? m) && Z.testbit a (m - n).
Proof.
  destruct (Z.leb_spec 0 m) as [Hm | Hm]; simpl.
  - apply Z.shiftl_spec; exact Hm.
  - apply Z.testbit_neg_r; exact Hm.
Qed.

Lemma testbit_shiftr (a n m : Z) :
  Z.testbit (Z.shiftr a n) m = (0 <=? m) && Z.testbit a (m + n).
Proof.
  destruct (Z.leb_spec 0 m) as [Hm | Hm]; simpl.
  - apply Z.shiftr_spec; exact Hm.
  - apply Z.testbit_neg_r; exact Hm.
Qed.

(** Masks written as literals in the source are runs of ones. *)
Ltac mask_as_ones m k :=
  repeat match goal with
  | |- context [Z.land ?x m] => change (Z.land x m) with (Z.land x (Z.ones k))
  end.

Ltac masks_as_ones :=
  repeat match goal with
  | |- context [Z.ones ?e] =>
      lazymatch e with
      | Zpos _ => fail
      | _ => let v := eval vm_compute in e in change (Z.ones e) with (Z.ones v)
      end
  end;
  mask_as_ones 1 1; mask_as_ones 0xF 4; mask_as_ones 0x1F 5;
  mask_as_ones 0x3F 6; mask_as_ones 0x7F 7; mask_as_ones 0xFF 8;
  mask_as_ones 0x3FF 10; mask_as_ones 0xFFF 12; mask_as_ones 0xFFFFFFFF 32;
  repeat match goal with
  | |- context [Z.land ?x 0xFFFFF000] =>
      change (Z.land x 0xFFFFF000) with (Z.land x (Z.shiftl (Z.ones 20) 12))
  end.

(** Push [Z.testbit] through the bitwise operators down to the variables. *)
Ltac push_testbit :=
  repeat first
    [ rewrite Z.lor_spec
    | rewrite Z.land_spec
    | rewrite testbit_shiftr
    | rewrite testbit_shiftl
    | rewrite Z.testbit_ones by lia
    | rewrite Z.testbit_0_l ].

(** Decide every comparison, dropping the impossible cases at once. *)
Ltac split_comparisons :=
  repeat match goal with
  | |- context [?a <? ?b] =>
      destruct (Z.ltb_spec a b); try (exfalso; lia); cbn [andb orb]
  | |- context [?a <=? ?b] =>
      destruct (Z.leb_spec a b); try (exfalso; lia); cbn [andb orb]
  end.

(** Bits outside the range of a bounded operand, or at a negative index,
    are zero. *)
Ltac clear_known_bits :=
  repeat match goal with
  | H : 0 <= ?x < ?b |- context [Z.testbit ?x ?i] =>
      let k := eval vm_compute in (Z.log2_up b) in
      rewrite (testbit_small x k i) by first [exact H | lia]
  | |- context [Z.testbit ?x ?i] => rewrite (Z.testbit_neg_r x i) by lia
  end.

Ltac normalize_indices :=
  repeat match goal with
  | |- context [Z.testbit _ ?e] => progress ring_simplify e
  end.

Ltac decide_bits :=
  simpl andb; simpl orb;
  repeat match goal with
  | |- context [Z.testbit ?x ?e] => destruct (Z.testbit x e)
  end;
  reflexivity.

Ltac bitblast :=
  masks_as_ones;
  apply Z.bits_inj'; intros ?i ?Hi;
  push_testbit; split_comparisons; clear_known_bits; normalize_indices;
  decide_bits.

Ltac unfold_fields :=
  unfold opcode_of, rd_of, funct3_of, rs1_of, rs2_of, funct7_of,
    i_imm_raw, s_imm_raw, b_imm_raw, u_imm, j_imm_raw, bits.

Ltac unfold_domains :=
  unfold is_reg, is_funct3, is_funct7, is_opcode, is_csr, is_shamt.

(** *** Reading the fields of each format back *)

Section RFormat.

Variables funct7 rs2 rs1 funct3 rd opcode : Z.
Hypothesis Hfunct7 : is_funct7 funct7.
Hypothesis Hrs2 : is_reg rs2.
Hypothesis Hrs1 : is_reg rs1.
Hypothesis Hfunct3 : is_funct3 funct3.
Hypothesis Hrd : is_reg rd.
Hypothesis Hopcode : is_opcode opcode.

Let w := r_type funct7 rs2 rs1 funct3 rd opcode.

Lemma r_type_fields :
  funct7_of w = funct7 /\ rs2_of w = rs2 /\ rs1_of w = rs1 /\
  funct3_of w = funct3 /\ rd_of w = rd /\ opcode_of w = opcode.
Proof.
  subst w. revert Hfunct7 Hrs2 Hrs1 Hfunct3 Hrd Hopcode.
  unfold_domains. unfold_fields. unfold r_type. intros.
  repeat split; bitblast.
Qed.

End RFormat.

Section IFormat.

Variables imm rs1 funct3 rd opcode : Z.
Hypothesis Hrs1 : is_reg rs1.
Hypothesis Hfunct3 : is_funct3 funct3.
Hypothesis Hrd : is_reg rd.
Hypothesis Hopcode : is_opcode opcode.

Let w := i_type imm rs1 funct3 rd opcode.

Lemma i_type_fields :
  i_imm_raw w = Z.land imm 0xFFF /\ rs1_of w = rs1 /\
  funct3_of w = funct3 /\ rd_of w = rd /\ opcode_of w = opcode.
Proof.
  subst w. revert Hrs1 Hfunct3 Hrd Hopcode.
  unfold_domains. unfold_fields. unfold i_type. intros.
  repeat split; bitblast.
Qed.

End IFormat.

Section SBFormat.

Variables imm rs2 rs1 funct3 opcode : Z.
Hypothesis Hrs2 : is_reg rs2.
Hypothesis Hrs1 : is_reg rs1.
Hypothesis Hfunct3 : is_funct3 funct3.
Hypothesis Hopcode : is_opcode opcode.

Lemma s_type_fields :
  let w := s_type imm rs2 rs1 funct3 opcode in
  s_imm_raw w = Z.land imm 0xFFF /\ rs2_of w = rs2 /\ rs1_of w = rs1 /\
  funct3_of w = funct3 /\ opcode_of w = opcode.
Proof.
  revert Hrs2 Hrs1 Hfunct3 Hopcode.
  unfold_domains. unfold_fields. unfold s_type. intros. cbv zeta.
  repeat split; bitblast.
Qed.

Lemma b_type_imm_bits :
  let w := b_type imm rs2 rs1 funct3 opcode in
  bits w 31 31 = Z.land (Z.shiftr imm 12) 1 /\
  bits w 7 7 = Z.land (Z.shiftr imm 11) 1 /\
  bits w 30 25 = Z.land (Z.shiftr imm 5) 0x3F /\
  bits w 11 8 = Z.land (Z.shiftr imm 1) 0xF.
Proof.
  revert Hrs2 Hrs1 Hfunct3 Hopcode.
  unfold_domains. unfold bits, b_type. intros. cbv zeta.
  repeat split; bitblast.
Qed.

Lemma b_type_fields :
  let w := b_type imm rs2 rs1 funct3 opcode in
  b_imm_raw w = Z.land imm (Z.shiftl (Z.ones 12) 1) /\ rs2_of w = rs2 /\
  rs1_of w = rs1 /\ funct3_of w = funct3 /\ opcode_of w = opcode.
Proof.
  cbv zeta. split.
  - unfold b_imm_raw.
    destruct b_type_imm_bits as (-> & -> & -> & ->). bitblast.
  - revert Hrs2 Hrs1 Hfunct3 Hopcode.
    unfold_domains. unfold_fields. unfold b_type. intros.
    repeat split; bitblast.
Qed.

End SBFormat.

Section UJFormat.

Variables imm rd opcode : Z.
Hypothesis Hrd : is_reg rd.
Hypothesis Hopcode : is_opcode opcode.

Lemma u_type_fields :
  let w := u_type imm rd opcode in
  u_imm w = Z.land imm 0xFFFFF000 /\ rd_of w = rd /\ opcode_of w = opcode.
Proof.
  revert Hrd Hopcode.
  unfold_domains. unfold_fields. unfold u_type. intros. cbv zeta.
  repeat split; bitblast.
Qed.

Lemma j_type_imm_bits :
  let w := j_type imm rd opcode in
  bits w 31 31 = Z.land (Z.shiftr imm 20) 1 /\
  bits w 19 12 = Z.land (Z.shiftr imm 12) 0xFF /\
  bits w 20 20 = Z.land (Z.shiftr imm 11) 1 /\
  bits w 30 21 = Z.land (Z.shiftr imm 1) 0x3FF.
Proof.
  revert Hrd Hopcode.
  unfold_domains. unfold bits, j_type. intros. cbv zeta.
  repeat split; bitblast.
Qed.

Lemma j_type_fields :
  let w := j_type imm rd opcode in
  j_imm_raw w = Z.land imm (Z.shiftl (Z.ones 20) 1) /\ rd_of w = rd /\
  opcode_of w = opcode.
Proof.
  cbv zeta. split.
  - unfold j_imm_raw.
    destruct j_type_imm_bits as (-> & -> & -> & ->). bitblast.
  - revert Hrd Hopcode.
    unfold_domains. unfold_fields. unfold j_type. intros.
    repeat split; bitblast.
Qed.

End UJFormat.

(** *** Sign extension *)

Lemma testbit_sign (k a : Z) :
  0 <= k -> - 2 ^ k <= a < 2 ^ k -> Z.testbit a k = (a <? 0).
Proof.
  intros Hk Ha. destruct (Z.ltb_spec a 0) as [Hneg | Hpos].
  - destruct (Z.eq_dec a (-1)) as [-> | Hnz].
    + apply Z.bits_m1. exact Hk.
    + apply Z.bits_above_log2_neg; [exact Hneg |].
      apply Z.log2_lt_pow2; lia.
  - apply (testbit_small a k k); lia.
Qed.

Lemma sign_extend_mod (w a : Z) :
  0 < w -> - 2 ^ (w - 1) <= a < 2 ^ (w - 1) ->
  sign_extend w (a mod 2 ^ w) = a.
Proof.
  intros Hw Ha. unfold sign_extend.
  assert (Hpow : 2 ^ w = 2 * 2 ^ (w - 1)).
  { rewrite <- Z.pow_succ_r by lia. f_equal. lia. }
  rewrite Z.mod_pow2_bits_low by lia.
  rewrite testbit_sign by lia.
  destruct (Z.ltb_spec a 0) as [Hneg | Hpos].
  - assert (a + 2 ^ w = a mod 2 ^ w) as <-; [| lia].
    apply (Z.mod_unique a (2 ^ w) (-1)); lia.
  - apply Z.mod_small. lia.
Qed.

Lemma land_even_mask (k a : Z) :
  0 <= k -> Z.even a = true ->
  Z.land a (Z.shiftl (Z.ones k) 1) = a mod 2 ^ (k + 1).
Proof.
  intros Hk Ha. apply Z.bits_inj'. intros i Hi.
  rewrite Z.land_spec, testbit_shiftl, Z.testbit_ones, Z.testbit_mod_pow2 by lia.
  destruct (Z.eq_dec i 0) as [-> | Hi0].
  - rewrite Z.bit0_odd, <- Z.negb_even, Ha. simpl. symmetry. apply andb_false_r.
  - destruct (Z.leb_spec 0 i), (Z.leb_spec 0 (i - 1)),
      (Z.ltb_spec (i - 1) k), (Z.ltb_spec i (k + 1));
      try lia; cbn [andb]; destruct (Z.testbit a i); reflexivity.
Qed.

Lemma i_imm_roundtrip (imm : Z) :
  imm12 imm -> sign_extend 12 (Z.land imm 0xFFF) = imm.
Proof.
  unfold imm12. intros H.
  change 0xFFF with (Z.ones 12). rewrite Z.land_ones by lia.
  apply sign_extend_mod; simpl; lia.
Qed.

Lemma b_imm_roundtrip (imm : Z) :
  imm13_even imm -> sign_extend 13 (Z.land imm (Z.shiftl (Z.ones 12) 1)) = imm.
Proof.
  unfold imm13_even. intros [H Heven].
  rewrite land_even_mask by (lia || exact Heven).
  apply sign_extend_mod; simpl; lia.
Qed.

Lemma j_imm_roundtrip (imm : Z) :
  imm21_even imm -> sign_extend 21 (Z.land imm (Z.shiftl (Z.ones 20) 1)) = imm.
Proof.
  unfold imm21_even. intros [H Heven].
  rewrite land_even_mask by (lia || exact Heven).
  apply sign_extend_mod; simpl; lia.
Qed.

(** *** Round trip *)

(** C4 (as amended): for every format and every operand tuple that lies in
    the domain of its fields (registers 0-31, funct3 0-7, funct7 0-127,
    opcode 0-127, immediate signed 12-bit for I and S, even signed 13-bit for
    B, even signed 21-bit for J, only bits 31:12 set for U), decoding the
    encoded word by the bit layout gives back the operands.  The domain
    contains 0 and the least and greatest immediate of every field, and -1
    for I and S. *)
Theorem roundtrip_in_range (ins : instr) :
  legal ins -> decode (format_of ins) (encode ins) = ins.
Proof.
  destruct ins as [funct7 rs2 rs1 funct3 rd opcode | imm rs1 funct3 rd opcode
                  | imm rs2 rs1 funct3 opcode | imm rs2 rs1 funct3 opcode
                  | imm rd opcode | imm rd opcode]; simpl.
  - intros (H7 & H2 & H1 & H3 & Hd & Ho).
    destruct (r_type_fields funct7 rs2 rs1 funct3 rd opcode H7 H2 H1 H3 Hd Ho)
      as (-> & -> & -> & -> & -> & ->).
    reflexivity.
  - intros (Hi & H1 & H3 & Hd & Ho). unfold i_imm.
    destruct (i_type_fields imm rs1 funct3 rd opcode H1 H3 Hd Ho)
      as (-> & -> & -> & -> & ->).
    rewrite (i_imm_roundtrip imm Hi). reflexivity.
  - intros (Hi & H2 & H1 & H3 & Ho). unfold s_imm.
    destruct (s_type_fields imm rs2 rs1 funct3 opcode H2 H1 H3 Ho)
      as (-> & -> & -> & -> & ->).
    rewrite (i_imm_roundtrip imm Hi). reflexivity.
  - intros (Hi & H2 & H1 & H3 & Ho). unfold b_imm.
    destruct (b_type_fields imm rs2 rs1 funct3 opcode H2 H1 H3 Ho)
      as (-> & -> & -> & -> & ->).
    rewrite (b_imm_roundtrip imm Hi). reflexivity.
  - intros (Hi & Hd & Ho).
    destruct (u_type_fields imm rd opcode Hd Ho) as (-> & -> & ->).
    rewrite Hi. reflexivity.
  - intros (Hi & Hd & Ho). unfold j_imm.
    destruct (j_type_fields imm rd opcode Hd Ho) as (-> & -> & ->).
    rewrite (j_imm_roundtrip imm Hi). reflexivity.
Qed.

Ltac legal_by_evaluation :=
  unfold legal, imm12, imm13_even, imm21_even, imm_upper20; unfold_domains;
  repeat split; solve [lia | reflexivity].

(** The least branch offset, BGE x0, x31, -4096, is read back unchanged. *)
Lemma roundtrip_in_range_witness :
  legal (InsB (-4096) 31 0 5 0x63) /\
  decode FB (encode (InsB (-4096) 31 0 5 0x63)) = InsB (-4096) 31 0 5 0x63.
Proof.
  split.
  - legal_by_evaluation.
  - apply (roundtrip_in_range (InsB (-4096) 31 0 5 0x63)). legal_by_evaluation.
Defined.

(** The immediate -1 is odd, and has bits below bit 12 set: the B, J and U
    encoders drop those bits, and the word reads back as -2 (B, J) or
    0xFFFFF000 (U). *)
Lemma roundtrip_fails_at_minus_one :
  decode FB (encode (InsB (-1) 0 0 0 0x63)) <> InsB (-1) 0 0 0 0x63 /\
  decode FJ (encode (InsJ (-1) 0 0x6F)) <> InsJ (-1) 0 0x6F /\
  decode FU (encode (InsU (-1) 0 0x37)) <> InsU (-1) 0 0x37.
Proof. repeat split; vm_compute; discriminate. Qed.

Example minus_one_reads_back :
  decode FB (encode (InsB (-1) 0 0 0 0x63)) = InsB (-2) 0 0 0 0x63 /\
  decode FJ (encode (InsJ (-1) 0 0x6F)) = InsJ (-2) 0 0x6F /\
  decode FU (encode (InsU (-1) 0 0x37)) = InsU 0xFFFFF000 0 0x37 /\
  decode FI (encode (InsI (-1) 0 0 0 0x13)) = InsI (-1) 0 0 0 0x13 /\
  decode FS (encode (InsS (-1) 0 0 0 0x23)) = InsS (-1) 0 0 0 0x23.
Proof. repeat split; reflexivity. Qed.

(** *** Out-of-range immediates *)

Lemma i_type_masked (imm rs1 funct3 rd opcode : Z) :
  i_type imm rs1 funct3 rd opcode = i_type (imm mod 2 ^ 12) rs1 funct3 rd opcode.
Proof.
  unfold i_type. change 0xFFF with (Z.ones 12).
  rewrite !Z.land_ones, Z.mod_mod by lia. reflexivity.
Qed.

Lemma s_type_masked (imm rs2 rs1 funct3 opcode : Z) :
  s_type imm rs2 rs1 funct3 opcode = s_type (Z.land imm 0xFFF) rs2 rs1 funct3 opcode.
Proof. unfold s_type; cbv zeta. bitblast. Qed.

Lemma b_type_masked (imm rs2 rs1 funct3 opcode : Z) :
  b_type imm rs2 rs1 funct3 opcode = b_type (Z.land imm 0x1FFE) rs2 rs1 funct3 opcode.
Proof.
  change 0x1FFE with (Z.shiftl (Z.ones 12) 1).
  unfold b_type; cbv zeta. bitblast.
Qed.

Lemma u_type_masked (imm rd opcode : Z) :
  u_type imm rd opcode = u_type (Z.land imm 0xFFFFF000) rd opcode.
Proof. unfold u_type. bitblast. Qed.

Lemma j_type_masked (imm rd opcode : Z) :
  j_type imm rd opcode = j_type (Z.land imm 0x1FFFFE) rd opcode.
Proof.
  change 0x1FFFFE with (Z.shiftl (Z.ones 20) 1).
  unfold j_type; cbv zeta. bitblast.
Qed.

(** C5: the encoders are total functions of their integer arguments (no
    operation in them can raise), and an immediate reaches the word only
    through the bits of its field: I and S keep bits 11:0, B bits 12:1,
    U bits 31:12 and J bits 20:1. *)
Theorem encoders_mask_immediate (imm rs2 rs1 funct3 rd opcode : Z) :
  i_type imm rs1 funct3 rd opcode = i_type (imm mod 2 ^ 12) rs1 funct3 rd opcode /\
  s_type imm rs2 rs1 funct3 opcode = s_type (Z.land imm 0xFFF) rs2 rs1 funct3 opcode /\
  b_type imm rs2 rs1 funct3 opcode = b_type (Z.land imm 0x1FFE) rs2 rs1 funct3 opcode /\
  u_type imm rd opcode = u_type (Z.land imm 0xFFFFF000) rd opcode /\
  j_type imm rd opcode = j_type (Z.land imm 0x1FFFFE) rd opcode.
Proof.
  repeat split.
  - apply i_type_masked.
  - apply s_type_masked.
  - apply b_type_masked.
  - apply u_type_masked.
  - apply j_type_masked.
Qed.

(** An immediate far outside the 13-bit branch range is accepted and
    encodes like its low bits. *)
Example b_type_truncates :
  b_type (0x12345 * 2) 2 1 0 0x63 = b_type 0x68A 2 1 0 0x63.
Proof. reflexivity. Qed.

(** Two immediates that agree on the bits of the field encode alike. *)
Corollary b_type_depends_on_bits_12_1 (imm imm' rs2 rs1 funct3 opcode : Z) :
  (forall i, 1 <= i <= 12 -> Z.testbit imm i = Z.testbit imm' i) ->
  b_type imm rs2 rs1 funct3 opcode = b_type imm' rs2 rs1 funct3 opcode.
Proof.
  intros Hbits.
  rewrite (b_type_masked imm), (b_type_masked imm').
  f_equal. change 0x1FFE with (Z.shiftl (Z.ones 12) 1).
  apply Z.bits_inj'. intros i Hi. push_testbit.
  destruct (Z.leb_spec 0 (i - 1)), (Z.ltb_spec (i - 1) 12); cbn [andb];
    rewrite ?andb_false_r; try reflexivity.
  rewrite Hbits by lia. reflexivity.
Qed.

(** *** Parity of branch and jump offsets *)

Lemma sign_extend_odd (width x : Z) :
  0 < width -> Z.odd (sign_extend width x) = Z.odd x.
Proof.
  intros Hw. unfold sign_extend. destruct (Z.testbit x (width - 1)); [| reflexivity].
  rewrite Z.odd_sub.
  replace width with (Z.succ (width - 1)) by lia.
  rewrite Z.pow_succ_r, Z.odd_mul by lia.
  simpl. apply xorb_false_r.
Qed.

Lemma b_imm_raw_bit0 (w : Z) : Z.testbit (b_imm_raw w) 0 = false.
Proof. unfold b_imm_raw. push_testbit. reflexivity. Qed.

Lemma j_imm_raw_bit0 (w : Z) : Z.testbit (j_imm_raw w) 0 = false.
Proof. unfold j_imm_raw. push_testbit. reflexivity. Qed.

(** C6: whatever the operands, the immediate read back from a B-type or a
    J-type word is even. *)
Theorem branch_jump_immediate_even :
  (forall imm rs2 rs1 funct3 opcode : Z,
     Z.even (b_imm (b_type imm rs2 rs1 funct3 opcode)) = true) /\
  (forall imm rd opcode : Z,
     Z.even (j_imm (j_type imm rd opcode)) = true).
Proof.
  split; intros; rewrite <- Z.negb_odd; unfold b_imm, j_imm;
    rewrite sign_extend_odd by lia; rewrite <- Z.bit0_odd.
  - rewrite b_imm_raw_bit0. reflexivity.
  - rewrite j_imm_raw_bit0. reflexivity.
Qed.

(** For operands in range, what is read back is the immediate the encoder
    was given with bit 0 cleared and bits above the field dropped. *)
Lemma b_imm_of_b_type (imm rs2 rs1 funct3 opcode : Z) :
  is_reg rs2 -> is_reg rs1 -> is_funct3 funct3 -> is_opcode opcode ->
  b_imm (b_type imm rs2 rs1 funct3 opcode) = sign_extend 13 (Z.land imm 0x1FFE).
Proof.
  intros H2 H1 H3 Ho. unfold b_imm.
  destruct (b_type_fields imm rs2 rs1 funct3 opcode H2 H1 H3 Ho) as (-> & _).
  reflexivity.
Qed.

Lemma j_imm_of_j_type (imm rd opcode : Z) :
  is_reg rd -> is_opcode opcode ->
  j_imm (j_type imm rd opcode) = sign_extend 21 (Z.land imm 0x1FFFFE).
Proof.
  intros Hd Ho. unfold j_imm.
  destruct (j_type_fields imm rd opcode Hd Ho) as (-> & _).
  reflexivity.
Qed.

(** *** Words fit 32 bits *)

Lemma word32_land_ones (w : Z) : Z.land w (Z.ones 32) = w <-> word32 w.
Proof.
  unfold word32. rewrite Z.land_ones by lia. split.
  - intros <-. apply Z.mod_pos_bound. lia.
  - apply Z.mod_small.
Qed.

Lemma word32_lor (a b : Z) : word32 a -> word32 b -> word32 (Z.lor a b).
Proof.
  rewrite <- !word32_land_ones. intros Ha Hb.
  rewrite Z.land_lor_distr_l, Ha, Hb. reflexivity.
Qed.

Lemma word32_shifted_field (x k s : Z) :
  0 <= x < 2 ^ k -> 0 <= k -> 0 <= s -> k + s <= 32 -> word32 (Z.shiftl x s).
Proof.
  intros Hx Hk Hs Hks. unfold word32.
  rewrite Z.shiftl_mul_pow2 by exact Hs.
  assert (H32 : 2 ^ k * 2 ^ s <= 2 ^ 32).
  { rewrite <- Z.pow_add_r by lia. apply Z.pow_le_mono_r; lia. }
  assert (0 < 2 ^ s) by (apply Z.pow_pos_nonneg; lia).
  nia.
Qed.

Lemma land_ones_bound (x k : Z) : 0 <= k -> 0 <= Z.land x (Z.ones k) < 2 ^ k.
Proof.
  intros Hk. rewrite Z.land_ones by exact Hk.
  apply Z.mod_pos_bound. apply Z.pow_pos_nonneg; lia.
Qed.

Lemma word32_upper20 (imm : Z) : word32 (Z.land imm 0xFFFFF000).
Proof.
  apply word32_land_ones. rewrite <- Z.land_assoc. reflexivity.
Qed.

Lemma word32_small (x k : Z) : 0 <= x < 2 ^ k -> 0 <= k <= 32 -> word32 x.
Proof.
  intros Hx Hk. unfold word32.
  assert (2 ^ k <= 2 ^ 32) by (apply Z.pow_le_mono_r; lia). lia.
Qed.

(** A word is an inclusive-or of an opcode, of operands shifted into place,
    and of masked immediates shifted into place. *)
Ltac word32_leaf :=
  lazymatch goal with
  | |- word32 (Z.land _ (Z.shiftl (Z.ones 20) 12)) => apply word32_upper20
  | |- word32 (Z.shiftl (Z.land ?x (Z.ones ?k)) ?s) =>
      apply (word32_shifted_field _ k s); [apply land_ones_bound | ..]; lia
  | H : 0 <= ?x < ?b |- word32 (Z.shiftl ?x ?s) =>
      let k := eval vm_compute in (Z.log2_up b) in
      apply (word32_shifted_field x k s); [exact H | ..]; lia
  | H : 0 <= ?x < ?b |- word32 ?x =>
      let k := eval vm_compute in (Z.log2_up b) in
      apply (word32_small x k); [exact H | lia]
  | |- word32 _ =>
      unfold word32; split; [apply Z.leb_le | apply Z.ltb_lt]; vm_compute; reflexivity
  end.

Ltac word32_tac :=
  cbv zeta; masks_as_ones;
  repeat (apply word32_lor); word32_leaf.

Lemma word32_unchanged (w : Z) : word32 w -> unchanged_by_mask w.
Proof. intros H. split; [exact H | apply word32_land_ones; exact H]. Qed.

Section LegalOperands.

Variables rd rs1 rs2 funct3 funct7 opcode csr shamt : Z.
Hypothesis Hrd : is_reg rd.
Hypothesis Hrs1 : is_reg rs1.
Hypothesis Hrs2 : is_reg rs2.
Hypothesis Hfunct3 : is_funct3 funct3.
Hypothesis Hfunct7 : is_funct7 funct7.
Hypothesis Hopcode : is_opcode opcode.
Hypothesis Hcsr : is_csr csr.
Hypothesis Hshamt : is_shamt shamt.

Lemma r_type_word32 : word32 (r_type funct7 rs2 rs1 funct3 rd opcode).
Proof.
  revert Hrd Hrs1 Hrs2 Hfunct3 Hfunct7 Hopcode. unfold_domains. intros.
  unfold r_type. word32_tac.
Qed.

Lemma i_type_word32 (imm : Z) : word32 (i_type imm rs1 funct3 rd opcode).
Proof.
  revert Hrd Hrs1 Hfunct3 Hopcode. unfold_domains. intros.
  unfold i_type. word32_tac.
Qed.

Lemma s_type_word32 (imm : Z) : word32 (s_type imm rs2 rs1 funct3 opcode).
Proof.
  revert Hrs1 Hrs2 Hfunct3 Hopcode. unfold_domains. intros.
  unfold s_type. word32_tac.
Qed.

Lemma b_type_word32 (imm : Z) : word32 (b_type imm rs2 rs1 funct3 opcode).
Proof.
  revert Hrs1 Hrs2 Hfunct3 Hopcode. unfold_domains. intros.
  unfold b_type. word32_tac.
Qed.

Lemma u_type_word32 (imm : Z) : word32 (u_type imm rd opcode).
Proof.
  revert Hrd Hopcode. unfold_domains. intros.
  unfold u_type. word32_tac.
Qed.

Lemma j_type_word32 (imm : Z) : word32 (j_type imm rd opcode).
Proof.
  revert Hrd Hopcode. unfold_domains. intros.
  unfold j_type. word32_tac.
Qed.

Lemma csr_word32 : word32 (csrrw rd csr rs1) /\ word32 (csrrs rd csr rs1).
Proof.
  revert Hrd Hrs1 Hcsr. unfold_domains. intros.
  split; [unfold csrrw | unfold csrrs]; word32_tac.
Qed.

End LegalOperands.

Ltac unfold_wrappers :=
  unfold addi, add, sub, andi, ori, xori, slli, srli, srai, slti, slt, lui,
    auipc, sw, sh, sb, lw, lh, lb, lbu, lhu, beq, bne, blt, bge, jal, jalr.

Ltac in_domain := unfold_domains; first [assumption | lia].

(** C10: with registers in 0-31, funct3 in 0-7, funct7 in 0-127, the opcode
    in 0-127, the CSR number in 0-4095, the shift amount in 0-31 and any
    integer immediate, every format encoder and every mnemonic wrapper
    returns a value in [0, 2^32), which the serializer's mask leaves
    unchanged. *)
Theorem encoders_fit_32_bits (rd rs1 rs2 funct3 funct7 opcode csr shamt imm : Z) :
  is_reg rd -> is_reg rs1 -> is_reg rs2 -> is_funct3 funct3 ->
  is_funct7 funct7 -> is_opcode opcode -> is_csr csr -> is_shamt shamt ->
  Forall unchanged_by_mask
    (all_encodings rd rs1 rs2 funct3 funct7 opcode csr shamt imm).
Proof.
  intros Hrd Hrs1 Hrs2 Hfunct3 Hfunct7 Hopcode Hcsr Hshamt.
  unfold all_encodings.
  repeat (apply List.Forall_cons; [apply word32_unchanged |]);
    [.. | apply List.Forall_nil].
  all: unfold_wrappers.
  all: lazymatch goal with
       | |- word32 (r_type _ _ _ _ _ _) => apply r_type_word32; in_domain
       | |- word32 (i_type _ _ _ _ _) => apply i_type_word32; in_domain
       | |- word32 (s_type _ _ _ _ _) => apply s_type_word32; in_domain
       | |- word32 (b_type _ _ _ _ _) => apply b_type_word32; in_domain
       | |- word32 (u_type _ _ _) => apply u_type_word32; in_domain
       | |- word32 (j_type _ _ _) => apply j_type_word32; in_domain
       | |- word32 ecall => unfold ecall, word32; lia
       | |- word32 nop => split; [apply Z.leb_le | apply Z.ltb_lt]; reflexivity
       | |- word32 (csrrw _ _ _) => apply (csr_word32 rd rs1 csr Hrd Hrs1 Hcsr)
       | |- word32 (csrrs _ _ _) => apply (csr_word32 rd rs1 csr Hrd Hrs1 Hcsr)
       end.
Qed.

(** SUB x1, x2, x3 and its companions, with immediate -1. *)
Lemma encoders_fit_32_bits_witness :
  (is_reg 1 /\ is_reg 2 /\ is_reg 3 /\ is_funct3 0 /\ is_funct7 0x20 /\
   is_opcode 0x33 /\ is_csr 0xB00 /\ is_shamt 4) /\
  Forall unchanged_by_mask (all_encodings 1 2 3 0 0x20 0x33 0xB00 4 (-1)).
Proof.
  assert (H : is_reg 1 /\ is_reg 2 /\ is_reg 3 /\ is_funct3 0 /\ is_funct7 0x20 /\
              is_opcode 0x33 /\ is_csr 0xB00 /\ is_shamt 4).
  { unfold_domains. repeat split; lia. }
  split; [exact H |].
  destruct H as (Hrd & Hrs1 & Hrs2 & Hfunct3 & Hfunct7 & Hopcode & Hcsr & Hshamt).
  exact (encoders_fit_32_bits 1 2 3 0 0x20 0x33 0xB00 4 (-1)
           Hrd Hrs1 Hrs2 Hfunct3 Hfunct7 Hopcode Hcsr Hshamt).
Defined.

(** *** Concrete encodings *)

(** C7: ADDI x1, x0, 42 encodes to 0x02A00093. *)
Theorem addi_x1_x0_42 :
  addi 1 0 42 = 0x02A00093 /\ addi 1 0 42 = i_type 42 0 0 1 0x13.
Proof. split; reflexivity. Qed.

(** JAL x16, +8. *)
Example jal_x16_8 : jal 16 8 = 0x0080086F.
Proof. reflexivity. Qed.

(** *** The program and its patch *)

Example program_literal_length : length program_literal = 46%nat.
Proof. reflexivity. Qed.

Lemma list_setitem_front (l : list Z) (i v : Z) :
  0 <= i < Z.of_nat (length l) ->
  list_setitem l i v = Ret (<[Z.to_nat i := v]> l).
Proof.
  intros Hi. unfold list_setitem.
  destruct (Z.leb_spec 0 i); [| lia].
  destruct (Z.ltb_spec i (Z.of_nat (length l))); [| lia].
  reflexivity.
Qed.

(** An assignment to an item replaces one element and nothing else. *)
Lemma list_setitem_frame (l l' : list Z) (i v : Z) :
  list_setitem l i v = Ret l' ->
  length l' = length l /\
  exists k : nat,
    (k < length l)%nat /\
    (Z.of_nat k = i \/ Z.of_nat k = Z.of_nat (length l) + i) /\
    l' !! k = Some v /\
    forall j : nat, j <> k -> l' !! j = l !! j.
Proof.
  unfold list_setitem.
  destruct ((0 <=? i) && (i <? Z.of_nat (length l))) eqn:Hfront;
    [| destruct ((- Z.of_nat (length l) <=? i) && (i <? 0)) eqn:Hback];
    intros Heq; inversion Heq; subst l'; clear Heq;
    (split; [apply length_insert |]).
  - apply andb_true_iff in Hfront as [H0 Hn].
    apply Z.leb_le in H0. apply Z.ltb_lt in Hn.
    exists (Z.to_nat i). repeat split.
    + lia.
    + left. lia.
    + apply list_lookup_insert_eq. lia.
    + intros j Hj. apply list_lookup_insert_ne. congruence.
  - apply andb_true_iff in Hback as [Hn H0].
    apply Z.leb_le in Hn. apply Z.ltb_lt in H0.
    exists (Z.to_nat (Z.of_nat (length l) + i)). repeat split.
    + lia.
    + right. lia.
    + apply list_lookup_insert_eq. lia.
    + intros j Hj. apply list_lookup_insert_ne. congruence.
Qed.

(** C3: what [program[18] = jalr(x20, x16, 12)] does to the program literal.
    The assignment succeeds, keeps the length and every word but the one at
    index 18.  The word at index 18 (byte address 0x48) is the GPIO direction
    store [sw x14, 8(x13)], not the JALR: the JALR emitted as
    [jalr(x20, x16, 0)] sits at index 29 (byte address 0x74) and is still
    there after the patch. *)
Theorem patch_overwrites_index_18 :
  exists patched : list Z,
    program = Ret patched /\
    length patched = length program_literal /\
    (forall j : nat, j <> 18%nat -> patched !! j = program_literal !! j) /\
    patched !! 18%nat = Some (jalr x20 x16 12) /\
    program_literal !! 18%nat = Some (sw x14 8 x13) /\
    sw x14 8 x13 <> jalr x20 x16 0 /\
    program_literal !! 29%nat = Some (jalr x20 x16 0) /\
    patched !! 29%nat = Some (jalr x20 x16 0) /\
    (4 * 18 = 0x48 /\ 4 * 29 = 0x74).
Proof.
  unfold program, patch_index.
  rewrite list_setitem_front by (rewrite program_literal_length; lia).
  eexists. split; [reflexivity |].
  split; [apply length_insert |].
  split; [intros j Hj; apply list_lookup_insert_ne; intros <-; apply Hj; reflexivity |].
  split; [apply list_lookup_insert_eq; rewrite program_literal_length; simpl; lia |].
  split; [reflexivity |].
  split; [vm_compute; discriminate |].
  split; [reflexivity |].
  split; [reflexivity |].
  split; reflexivity.
Qed.

(** *** The register observer *)

(** C8: register index 0 reads as 0 in every state of the device, whatever
    its register file holds or raises. *)
Theorem get_reg_zero (st : dut_state) : get_reg st 0 = Ret 0.
Proof. reflexivity. Qed.

Example unreadable_regfile_reads_zero :
  get_reg {| regs := fun _ => Raise AttributeError |} 0 = Ret 0 /\
  get_reg {| regs := fun _ => Ret 0xDEADBEEF |} 0 = Ret 0 /\
  get_reg {| regs := fun _ => Ret 0xDEADBEEF |} 1 = Ret 0xDEADBEEF.
Proof. repeat split. Qed.

(** *** The waiters *)

Lemma wait_reg_loop_step (dut : dut_handle) (idx val : Z) (n : nat) (s : sim) :
  wait_reg_loop dut idx val (S n) s =
    match get_reg (dut (S (edges s))) idx with
    | Ret v => if v =? val then (Ret true, tick s)
               else wait_reg_loop dut idx val n (tick s)
    | Raise _ => wait_reg_loop dut idx val n (tick s)
    end.
Proof.
  cbn [wait_reg_loop]. unfold bind, await_RisingEdge, try_pass, now, ret, tick.
  cbn [edges]. destruct (get_reg (dut (S (edges s))) idx) as [v | e]; [| reflexivity].
  destruct (v =? val); reflexivity.
Qed.

Lemma wait_reg_nonzero_loop_step (dut : dut_handle) (idx : Z) (n : nat) (s : sim) :
  wait_reg_nonzero_loop dut idx (S n) s =
    match get_reg (dut (S (edges s))) idx with
    | Ret v => if negb (v =? 0) then (Ret true, tick s)
               else wait_reg_nonzero_loop dut idx n (tick s)
    | Raise _ => wait_reg_nonzero_loop dut idx n (tick s)
    end.
Proof.
  cbn [wait_reg_nonzero_loop]. unfold bind, await_RisingEdge, try_pass, now, ret, tick.
  cbn [edges]. destruct (get_reg (dut (S (edges s))) idx) as [v | e]; [| reflexivity].
  destruct (negb (v =? 0)); reflexivity.
Qed.

(** The loops never raise: they end with [True] or run out. *)
Lemma wait_reg_loop_returns (dut : dut_handle) (idx val : Z) (n : nat) (s : sim) :
  exists (b : bool) (s' : sim), wait_reg_loop dut idx val n s = (Ret b, s').
Proof.
  revert s. induction n as [| n IH]; intros s.
  - exists false, s. reflexivity.
  - rewrite wait_reg_loop_step.
    destruct (get_reg (dut (S (edges s))) idx) as [v | e]; [| apply IH].
    destruct (v =? val); [| apply IH]. exists true, (tick s). reflexivity.
Qed.

Lemma wait_reg_nonzero_loop_returns (dut : dut_handle) (idx : Z) (n : nat) (s : sim) :
  exists (b : bool) (s' : sim), wait_reg_nonzero_loop dut idx n s = (Ret b, s').
Proof.
  revert s. induction n as [| n IH]; intros s.
  - exists false, s. reflexivity.
  - rewrite wait_reg_nonzero_loop_step.
    destruct (get_reg (dut (S (edges s))) idx) as [v | e]; [| apply IH].
    destruct (negb (v =? 0)); [| apply IH]. exists true, (tick s). reflexivity.
Qed.

(** A loop that ends with [True] ends at the first edge after which a sample
    succeeds and matches; that edge comes after the call. *)
Lemma wait_reg_loop_true (dut : dut_handle) (idx val : Z) (n : nat) (s s' : sim) :
  wait_reg_loop dut idx val n s = (Ret true, s') ->
  (edges s < edges s' <= edges s + n)%nat /\
  log s' = log s /\
  get_reg (dut (edges s')) idx = Ret val /\
  forall t : nat, (edges s < t < edges s')%nat -> get_reg (dut t) idx <> Ret val.
Proof.
  revert s. induction n as [| n IH]; intros s.
  - cbn. unfold ret. intros H. discriminate H.
  - rewrite wait_reg_loop_step.
    assert (Hrec : wait_reg_loop dut idx val n (tick s) = (Ret true, s') ->
                   get_reg (dut (S (edges s))) idx <> Ret val ->
                   (edges s < edges s' <= edges s + S n)%nat /\
                   log s' = log s /\
                   get_reg (dut (edges s')) idx = Ret val /\
                   forall t : nat, (edges s < t < edges s')%nat ->
                                   get_reg (dut t) idx <> Ret val).
    { intros Hloop Hfirst. destruct (IH _ Hloop) as (Hedges & Hlog & Hval & Hbefore).
      cbn [tick edges log] in *. repeat split; try lia; try assumption.
      intros t Ht. destruct (Nat.eq_dec t (S (edges s))) as [-> | Hne].
      - exact Hfirst.
      - apply Hbefore. lia. }
    destruct (get_reg (dut (S (edges s))) idx) as [v | e] eqn:Hsample.
    + destruct (Z.eqb_spec v val) as [-> | Hne].
      * intros H. inversion H; subst s'. cbn [tick edges log].
        repeat split; try lia; try assumption; intros t Ht; lia.
      * intros H. apply Hrec; [exact H | congruence].
    + intros H. apply Hrec; [exact H | discriminate].
Qed.

Lemma wait_reg_nonzero_loop_true (dut : dut_handle) (idx : Z) (n : nat) (s s' : sim) :
  wait_reg_nonzero_loop dut idx n s = (Ret true, s') ->
  (edges s < edges s' <= edges s + n)%nat /\
  log s' = log s /\
  exists v : Z, get_reg (dut (edges s')) idx = Ret v /\ v <> 0.
Proof.
  revert s. induction n as [| n IH]; intros s.
  - cbn. unfold ret. intros H. discriminate H.
  - rewrite wait_reg_nonzero_loop_step.
    assert (Hrec : wait_reg_nonzero_loop dut idx n (tick s) = (Ret true, s') ->
                   (edges s < edges s' <= edges s + S n)%nat /\
                   log s' = log s /\
                   exists v : Z, get_reg (dut (edges s')) idx = Ret v /\ v <> 0).
    { intros Hloop. destruct (IH _ Hloop) as (Hedges & Hlog & Hval).
      cbn [tick edges log] in *. repeat split; try lia; assumption. }
    destruct (get_reg (dut (S (edges s))) idx) as [v | e] eqn:Hsample; [| exact Hrec].
    destruct (Z.eqb_spec v 0) as [-> | Hne]; cbn [negb]; [exact Hrec |].
    intros H. inversion H; subst s'. cbn [tick edges log].
    repeat split; try lia. exists v. split; assumption.
Qed.

(** The state of the device at or before the call is never looked at. *)
Lemma wait_reg_loop_ext (dut dut' : dut_handle) (idx val : Z) (n : nat) (s : sim) :
  (forall t : nat, (edges s < t)%nat -> dut' t = dut t) ->
  wait_reg_loop dut' idx val n s = wait_reg_loop dut idx val n s.
Proof.
  revert s. induction n as [| n IH]; intros s Hsame; [reflexivity |].
  rewrite !wait_reg_loop_step, Hsame by lia.
  assert (Hrec : wait_reg_loop dut' idx val n (tick s) =
                 wait_reg_loop dut idx val n (tick s)).
  { apply IH. cbn [tick edges]. intros t Ht. apply Hsame. lia. }
  rewrite Hrec. reflexivity.
Qed.

Lemma wait_reg_nonzero_loop_ext (dut dut' : dut_handle) (idx : Z) (n : nat) (s : sim) :
  (forall t : nat, (edges s < t)%nat -> dut' t = dut t) ->
  wait_reg_nonzero_loop dut' idx n s = wait_reg_nonzero_loop dut idx n s.
Proof.
  revert s. induction n as [| n IH]; intros s Hsame; [reflexivity |].
  rewrite !wait_reg_nonzero_loop_step, Hsame by lia.
  assert (Hrec : wait_reg_nonzero_loop dut' idx n (tick s) =
                 wait_reg_nonzero_loop dut idx n (tick s)).
  { apply IH. cbn [tick edges]. intros t Ht. apply Hsame. lia. }
  rewrite Hrec. reflexivity.
Qed.

(** A loop none of whose samples satisfies the condition runs out after
    all its iterations, one edge each. *)
Lemma wait_reg_loop_false (dut : dut_handle) (idx val : Z) (n : nat) (s : sim) :
  (forall t : nat, (edges s < t <= edges s + n)%nat -> get_reg (dut t) idx <> Ret val) ->
  wait_reg_loop dut idx val n s =
    (Ret false, {| edges := edges s + n; log := log s |}).
Proof.
  revert s. induction n as [| n IH]; intros s Hnever.
  - cbn. unfold ret. rewrite Nat.add_0_r. destruct s; reflexivity.
  - rewrite wait_reg_loop_step.
    assert (Hrec : wait_reg_loop dut idx val n (tick s) =
                   (Ret false, {| edges := edges s + S n; log := log s |})).
    { rewrite IH; cbn [tick edges log].
      - do 2 f_equal. lia.
      - intros t Ht. apply Hnever. lia. }
    destruct (get_reg (dut (S (edges s))) idx) as [v | e] eqn:Hsample; [| exact Hrec].
    destruct (Z.eqb_spec v val) as [-> | Hne]; [| exact Hrec].
    exfalso. apply (Hnever (S (edges s))); [lia | exact Hsample].
Qed.

Lemma wait_reg_nonzero_loop_false (dut : dut_handle) (idx : Z) (n : nat) (s : sim) :
  (forall (t : nat) (v : Z), (edges s < t <= edges s + n)%nat ->
      get_reg (dut t) idx = Ret v -> v = 0) ->
  wait_reg_nonzero_loop dut idx n s =
    (Ret false, {| edges := edges s + n; log := log s |}).
Proof.
  revert s. induction n as [| n IH]; intros s Hnever.
  - cbn. unfold ret. rewrite Nat.add_0_r. destruct s; reflexivity.
  - rewrite wait_reg_nonzero_loop_step.
    assert (Hrec : wait_reg_nonzero_loop dut idx n (tick s) =
                   (Ret false, {| edges := edges s + S n; log := log s |})).
    { rewrite IH; cbn [tick edges log].
      - do 2 f_equal. lia.
      - intros t v Ht. apply Hnever. lia. }
    destruct (get_reg (dut (S (edges s))) idx) as [v | e] eqn:Hsample; [| exact Hrec].
    destruct (Z.eqb_spec v 0) as [-> | Hne]; cbn [negb]; [exact Hrec |].
    exfalso. apply Hne. apply (Hnever (S (edges s)) v); [lia | exact Hsample].
Qed.

(** Neither waiter raises, whatever the device does. *)
Lemma waiters_return (dut : dut_handle) (idx val timeout : Z) (s : sim) :
  (exists (b : bool) (s' : sim), wait_reg dut idx val timeout s = (Ret b, s')) /\
  (exists (b : bool) (s' : sim), wait_reg_nonzero dut idx timeout s = (Ret b, s')).
Proof.
  split.
  - unfold wait_reg, bind.
    destruct (wait_reg_loop_returns dut idx val (Z.to_nat timeout) s) as (b & s1 & ->).
    destruct b; cbn; eauto.
  - apply wait_reg_nonzero_loop_returns.
Qed.

(** C1: when [wait_reg] reports success, at least one clock edge has passed
    since the call, the matching sample was taken after the last of these
    edges, no earlier sample after the call matched, and the state the
    device had at the call (or before) plays no part: any device that
    behaves the same after the call gives the same outcome.  So a condition
    that already holds at the call is only seen after an edge. *)
Theorem wait_reg_samples_after_edge
    (dut : dut_handle) (idx val timeout : Z) (s s' : sim) :
  wait_reg dut idx val timeout s = (Ret true, s') ->
  (edges s < edges s')%nat /\
  get_reg (dut (edges s')) idx = Ret val /\
  (forall t : nat, (edges s < t < edges s')%nat -> get_reg (dut t) idx <> Ret val) /\
  (forall dut' : dut_handle,
     (forall t : nat, (edges s < t)%nat -> dut' t = dut t) ->
     wait_reg dut' idx val timeout s = (Ret true, s')).
Proof.
  intros Hrun.
  assert (Hloop : wait_reg_loop dut idx val (Z.to_nat timeout) s = (Ret true, s')).
  { revert Hrun. unfold wait_reg, bind.
    destruct (wait_reg_loop dut idx val (Z.to_nat timeout) s) as [[[|] | e] s1];
      cbn; intros H; inversion H; reflexivity. }
  destruct (wait_reg_loop_true _ _ _ _ _ _ Hloop) as (Hedges & _ & Hval & Hbefore).
  repeat split; try lia; try assumption.
  intros dut' Hsame. unfold wait_reg, bind.
  rewrite (wait_reg_loop_ext dut dut') by exact Hsame.
  rewrite Hloop. reflexivity.
Qed.

(** The register already holds the awaited value at the call; success is
    reported after one edge, not after none. *)
Lemma wait_reg_samples_after_edge_witness :
  get_reg (dut_all_52 (edges fresh)) 3 = Ret 52 /\
  wait_reg dut_all_52 3 52 50000 fresh = (Ret true, tick fresh) /\
  (edges fresh < edges (tick fresh))%nat.
Proof.
  assert (Hrun : wait_reg dut_all_52 3 52 50000 fresh = (Ret true, tick fresh)).
  { vm_compute. reflexivity. }
  split; [reflexivity |]. split; [exact Hrun |].
  exact (proj1 (wait_reg_samples_after_edge dut_all_52 3 52 50000 fresh (tick fresh) Hrun)).
Defined.

(** The same for [wait_reg_nonzero]. *)
Lemma wait_reg_nonzero_samples_after_edge
    (dut : dut_handle) (idx timeout : Z) (s s' : sim) :
  wait_reg_nonzero dut idx timeout s = (Ret true, s') ->
  (edges s < edges s')%nat /\
  (exists v : Z, get_reg (dut (edges s')) idx = Ret v /\ v <> 0) /\
  (forall dut' : dut_handle,
     (forall t : nat, (edges s < t)%nat -> dut' t = dut t) ->
     wait_reg_nonzero dut' idx timeout s = (Ret true, s')).
Proof.
  unfold wait_reg_nonzero. intros Hloop.
  destruct (wait_reg_nonzero_loop_true _ _ _ _ _ Hloop) as (Hedges & _ & Hval).
  repeat split; try lia; try assumption.
  intros dut' Hsame.
  rewrite (wait_reg_nonzero_loop_ext dut dut') by exact Hsame. exact Hloop.
Qed.

(** C2: when no sample taken after the next [max_edges] edges satisfies the
    condition (it may differ, or the observation may raise), each waiter
    returns [False], without raising, in the state reached after exactly
    [max_edges] edges; [wait_reg] has logged its warning, and
    [wait_reg_nonzero] nothing.  The number of edges is the length of
    [range(timeout)], which is [timeout] for a non-negative [timeout]. *)
Theorem waiters_time_out_after_max_edges
    (dut : dut_handle) (idx val timeout : Z) (s : sim) :
  let max_edges := Z.to_nat timeout in
  ((forall t : nat, (edges s < t <= edges s + max_edges)%nat ->
      get_reg (dut t) idx <> Ret val) ->
   wait_reg dut idx val timeout s =
     (Ret false, {| edges := edges s + max_edges;
                    log := log s ++ [timeout_message idx val] |})) /\
  ((forall (t : nat) (v : Z), (edges s < t <= edges s + max_edges)%nat ->
      get_reg (dut t) idx = Ret v -> v = 0) ->
   wait_reg_nonzero dut idx timeout s =
     (Ret false, {| edges := edges s + max_edges; log := log s |})) /\
  (0 <= timeout -> Z.of_nat max_edges = timeout).
Proof.
  cbv zeta. repeat split.
  - intros Hnever. unfold wait_reg, bind.
    rewrite (wait_reg_loop_false _ _ _ _ _ Hnever). reflexivity.
  - intros Hnever. unfold wait_reg_nonzero.
    apply wait_reg_nonzero_loop_false. exact Hnever.
  - intros Hpos. apply Z2Nat.id. exact Hpos.
Qed.

(** A register that reads 7 or cannot be read never equals 9, and one that
    reads 0 or cannot be read is never nonzero: four edges, then [False]. *)
Lemma waiters_time_out_after_max_edges_witness :
  wait_reg dut_flaky_7 5 9 4 fresh =
    (Ret false, {| edges := 4; log := ["Timeout waiting for x5 = 0x00000009"%string] |}) /\
  wait_reg_nonzero dut_flaky_0 5 4 fresh = (Ret false, {| edges := 4; log := [] |}) /\
  Z.of_nat (Z.to_nat 4) = 4.
Proof.
  destruct (waiters_time_out_after_max_edges dut_flaky_7 5 9 4 fresh) as (Heq & _ & Hn).
  destruct (waiters_time_out_after_max_edges dut_flaky_0 5 9 4 fresh) as (_ & Hnz & _).
  split; [| split].
  - apply Heq. intros t Ht. unfold dut_flaky_7, get_reg. cbn.
    destruct (Nat.even t); discriminate.
  - apply Hnz. intros t v Ht. unfold dut_flaky_0, get_reg. cbn.
    destruct (Nat.even t); intros H; inversion H; reflexivity.
  - apply Hn. lia.
Defined.

(** *** The serializer *)

Lemma append_assoc (a b c : string) :
  String.append (String.append a b) c = String.append a (String.append b c).
Proof. induction a as [| ch a IH]; cbn; [reflexivity | rewrite IH; reflexivity]. Qed.

Lemma append_empty_r (a : string) : String.append a EmptyString = a.
Proof. induction a as [| ch a IH]; cbn; [reflexivity | rewrite IH; reflexivity]. Qed.

Lemma length_append (a b : string) :
  String.length (String.append a b) = (String.length a + String.length b)%nat.
Proof. induction a as [| ch a IH]; cbn; [reflexivity | rewrite IH; reflexivity]. Qed.

(** The loop appends one [hex_line] per word to what the file holds. *)
Lemma write_program_unlines (f : string) (prog : list Z) :
  write_program f prog =
    String.append f
      (unlines (map (fun instr => format_08X (Z.land instr 0xFFFFFFFF)) prog)).
Proof.
  revert f. induction prog as [| instr rest IH]; intros f; cbn [write_program map unlines].
  - symmetry. apply append_empty_r.
  - rewrite IH. unfold write, hex_line. rewrite !append_assoc. reflexivity.
Qed.

(** **** Digits *)

Lemma hex_digit_value_hex_digit (d : Z) :
  0 <= d < 16 -> hex_digit_value (hex_digit d) = Some d.
Proof.
  intros Hd.
  assert (H : d = 0 \/ d = 1 \/ d = 2 \/ d = 3 \/ d = 4 \/ d = 5 \/ d = 6 \/ d = 7 \/
              d = 8 \/ d = 9 \/ d = 10 \/ d = 11 \/ d = 12 \/ d = 13 \/ d = 14 \/ d = 15)
    by lia.
  repeat (destruct H as [-> | H]; [reflexivity |]). subst d. reflexivity.
Qed.

Lemma mod_16_digit (z : Z) : 0 <= z mod 16 < 16.
Proof. apply Z.mod_pos_bound. lia. Qed.

Lemma hex_fixed_length (k : nat) (z : Z) (acc : string) :
  String.length (hex_fixed k z acc) = (k + String.length acc)%nat.
Proof.
  revert z acc. induction k as [| k IH]; intros z acc; cbn [hex_fixed].
  - reflexivity.
  - rewrite IH. cbn. lia.
Qed.

Lemma hex_fixed_all_upper_hex (k : nat) (z : Z) (acc : string) :
  all_upper_hex acc = true -> all_upper_hex (hex_fixed k z acc) = true.
Proof.
  revert z acc. induction k as [| k IH]; intros z acc Hacc; cbn [hex_fixed].
  - exact Hacc.
  - apply IH. cbn [all_upper_hex]. rewrite Hacc. unfold is_upper_hex.
    rewrite hex_digit_value_hex_digit by apply mod_16_digit. reflexivity.
Qed.

Lemma hex_fixed_value (k : nat) (z v : Z) (acc : string) :
  hex_value_from v (hex_fixed k z acc) =
    hex_value_from (v * 16 ^ Z.of_nat k + z mod 16 ^ Z.of_nat k) acc.
Proof.
  revert z acc. induction k as [| k IH]; intros z acc; cbn [hex_fixed].
  - cbn. rewrite Z.mod_1_r. f_equal. lia.
  - rewrite IH. cbn [hex_value_from].
    rewrite hex_digit_value_hex_digit by apply mod_16_digit.
    f_equal. rewrite Nat2Z.inj_succ, Z.pow_succ_r by lia.
    assert (Hpos : 0 < 16 ^ Z.of_nat k) by (apply Z.pow_pos_nonneg; lia).
    rewrite (Z.rem_mul_r z 16 (16 ^ Z.of_nat k)) by lia. lia.
Qed.

Lemma zeros_cons (k : nat) (s : string) :
  zeros k (String "0"%char s) = String "0"%char (zeros k s).
Proof. induction k as [| k IH]; cbn; [reflexivity | rewrite IH; reflexivity]. Qed.

Lemma hex_fixed_zero (k : nat) (acc : string) : hex_fixed k 0 acc = zeros k acc.
Proof.
  revert acc. induction k as [| k IH]; intros acc; cbn [hex_fixed zeros].
  - reflexivity.
  - change (0 / 16) with 0. change (hex_digit (0 mod 16)) with "0"%char.
    rewrite IH. apply zeros_cons.
Qed.

Lemma hex_fixed_add (m d : nat) (z : Z) (acc : string) :
  hex_fixed (d + m) z acc = hex_fixed m (z / 16 ^ Z.of_nat d) (hex_fixed d z acc).
Proof.
  revert z acc. induction d as [| d IH]; intros z acc.
  - cbn. rewrite Z.div_1_r. reflexivity.
  - cbn [Nat.add hex_fixed]. rewrite IH.
    rewrite Nat2Z.inj_succ, Z.pow_succ_r by lia.
    rewrite Z.div_div by (try apply Z.pow_pos_nonneg; lia). reflexivity.
Qed.

(** With enough fuel, [hex_digits] renders the number with as many digits
    as it has, and at least one. *)
Lemma hex_digits_fixed (fuel : nat) (n : Z) (acc : string) :
  (1 <= fuel)%nat -> 0 <= n < 16 ^ Z.of_nat fuel ->
  exists d : nat,
    (1 <= d <= fuel)%nat /\ n < 16 ^ Z.of_nat d /\
    (d = 1%nat \/ 16 ^ Z.of_nat (Nat.pred d) <= n) /\
    hex_digits fuel n acc = hex_fixed d n acc.
Proof.
  revert n acc. induction fuel as [| fuel IH]; intros n acc Hfuel Hn; [lia |].
  - cbn [hex_digits].
    pose proof (Z.div_mod n 16 ltac:(lia)) as Hdm.
    pose proof (mod_16_digit n) as Hmod.
    destruct (Z.eqb_spec (n / 16) 0) as [Hlast | Hmore].
    + exists 1%nat.
      split; [lia |]. split; [change (16 ^ Z.of_nat 1) with 16; lia |].
      split; [left; reflexivity | reflexivity].
    + rewrite Nat2Z.inj_succ, Z.pow_succ_r in Hn by lia.
      assert (Hdiv : 0 <= n / 16 < 16 ^ Z.of_nat fuel) by lia.
      assert (Hfuel' : (1 <= fuel)%nat).
      { destruct fuel; [| lia]. change (16 ^ Z.of_nat 0) with 1 in Hdiv. lia. }
      destruct (IH (n / 16) (String (hex_digit (n mod 16)) acc) Hfuel' Hdiv)
        as (d & Hd & Hbound & Hmin & ->).
      exists (S d).
      split; [lia |]. split; [| split; [right | reflexivity]].
      * rewrite Nat2Z.inj_succ, Z.pow_succ_r by lia. lia.
      * cbn [Nat.pred]. destruct Hmin as [-> | Hmin].
        -- change (16 ^ Z.of_nat 1) with 16. lia.
        -- replace d with (S (Nat.pred d)) by lia.
           rewrite Nat2Z.inj_succ, Z.pow_succ_r by lia. lia.
Qed.

Lemma hex_upper_fuel (n : Z) :
  0 <= n -> n < 16 ^ Z.of_nat (S (Z.to_nat (Z.log2 n))).
Proof.
  intros Hn. rewrite Nat2Z.inj_succ, Z2Nat.id by apply Z.log2_nonneg.
  destruct (Z.eq_dec n 0) as [-> | Hnz]; [reflexivity |].
  destruct (Z.log2_spec n ltac:(lia)) as [_ Hup].
  eapply Z.lt_le_trans; [exact Hup |].
  apply Z.pow_le_mono_l. lia.
Qed.

(** The fuel [hex_upper] starts from is enough for every number: the digits
    it produces denote the number. *)
Lemma hex_upper_value (n : Z) : 0 <= n -> hex_value (hex_upper n) = Some n.
Proof.
  intros Hn. unfold hex_upper, hex_value.
  destruct (hex_digits_fixed _ n EmptyString (le_n_S _ _ (Nat.le_0_l _))
              (conj Hn (hex_upper_fuel n Hn)))
    as (d & _ & Hbound & _ & ->).
  rewrite hex_fixed_value. cbn [hex_value_from].
  rewrite Z.mod_small by lia. f_equal.
Qed.

(** Within 32 bits, [format(z, "08X")] is the 8-digit rendering. *)
Lemma format_08X_fixed (z : Z) :
  0 <= z < 2 ^ 32 -> format_08X z = hex_fixed 8 z EmptyString.
Proof.
  intros Hz. unfold format_08X.
  destruct (Z.ltb_spec z 0) as [Hneg | _]; [lia |].
  unfold zfill, hex_upper.
  destruct (hex_digits_fixed _ z EmptyString (le_n_S _ _ (Nat.le_0_l _))
              (conj (proj1 Hz) (hex_upper_fuel z (proj1 Hz))))
    as (d & Hd & Hbound & Hmin & ->).
  rewrite hex_fixed_length. cbn [String.length]. rewrite Nat.add_0_r.
  assert (Hd8 : (d <= 8)%nat).
  { destruct Hmin as [-> | Hmin]; [lia |].
    destruct (Nat.le_gt_cases d 8) as [Hle | Hgt]; [exact Hle | exfalso].
    assert (16 ^ 8 <= 16 ^ Z.of_nat (Nat.pred d)) by (apply Z.pow_le_mono_r; lia).
    change (2 ^ 32) with (16 ^ 8) in Hz. lia. }
  replace 8%nat with (d + (8 - d))%nat at 2 by lia.
  rewrite hex_fixed_add, Z.div_small by lia.
  symmetry. apply hex_fixed_zero.
Qed.

(** **** Lines *)

Lemma upper_hex_not_newline (c : ascii) :
  is_upper_hex c = true -> Ascii.eqb c newline = false.
Proof.
  intros Hc. destruct (Ascii.eqb_spec c newline) as [-> | _]; [| reflexivity].
  discriminate Hc.
Qed.

Lemma lines_from_line (cur line rest : string) :
  all_upper_hex line = true ->
  lines_from cur (String.append line (String newline rest)) =
    String.append cur line :: lines_from EmptyString rest.
Proof.
  revert cur. induction line as [| c line IH]; intros cur Hline.
  - cbn. rewrite append_empty_r. reflexivity.
  - cbn [all_upper_hex] in Hline. apply andb_true_iff in Hline as [Hc Hline].
    cbn [String.append lines_from]. rewrite (upper_hex_not_newline c Hc).
    rewrite IH by exact Hline. rewrite append_assoc. reflexivity.
Qed.

Lemma lines_unlines (ls : list string) :
  Forall (fun line => all_upper_hex line = true) ls -> lines (unlines ls) = ls.
Proof.
  unfold lines. induction 1 as [| line ls Hline _ IH]; cbn [unlines].
  - reflexivity.
  - rewrite lines_from_line by exact Hline. cbn [String.append]. rewrite IH.
    reflexivity.
Qed.

Lemma masked_word32 (instr : Z) : 0 <= Z.land instr 0xFFFFFFFF < 2 ^ 32.
Proof. apply (land_ones_bound instr 32). lia. Qed.

Lemma hex_fixed_image_line (z : Z) : image_line (hex_fixed 8 z EmptyString).
Proof.
  split.
  - apply hex_fixed_length.
  - apply hex_fixed_all_upper_hex. reflexivity.
Qed.

Lemma hex_fixed_8_value (z : Z) :
  0 <= z < 2 ^ 32 -> hex_value (hex_fixed 8 z EmptyString) = Some z.
Proof.
  intros Hz. unfold hex_value. rewrite hex_fixed_value. cbn [hex_value_from].
  f_equal. change (16 ^ Z.of_nat 8) with (2 ^ 32). rewrite Z.mod_small by exact Hz.
  lia.
Qed.

(** C9: the file written for a list of words consists of one line per word,
    in program order, and of nothing else; line [i] is the 8-digit uppercase
    hexadecimal rendering of word [i] masked to 32 bits, and denotes that
    masked word. *)
Theorem firmware_hex_lines (prog : list Z) :
  let rendered :=
    map (fun instr => hex_fixed 8 (Z.land instr 0xFFFFFFFF) EmptyString) prog in
  firmware_hex prog = unlines rendered /\
  lines (firmware_hex prog) = rendered /\
  length (lines (firmware_hex prog)) = length prog /\
  Forall image_line (lines (firmware_hex prog)) /\
  (forall (i : nat) (instr : Z),
     prog !! i = Some instr ->
     exists line : string,
       lines (firmware_hex prog) !! i = Some line /\
       hex_value line = Some (Z.land instr 0xFFFFFFFF)).
Proof.
  cbv zeta.
  assert (Hfile : firmware_hex prog =
                  unlines (map (fun instr =>
                    hex_fixed 8 (Z.land instr 0xFFFFFFFF) EmptyString) prog)).
  { unfold firmware_hex. rewrite write_program_unlines. cbn [String.append].
    f_equal. apply map_ext. intros instr.
    apply format_08X_fixed. apply masked_word32. }
  assert (Hlines : lines (firmware_hex prog) =
                   map (fun instr =>
                     hex_fixed 8 (Z.land instr 0xFFFFFFFF) EmptyString) prog).
  { rewrite Hfile. apply lines_unlines. apply List.Forall_map.
    apply List.Forall_forall. intros instr _. apply hex_fixed_image_line. }
  split; [exact Hfile |]. split; [exact Hlines |]. rewrite Hlines.
  split; [apply length_map |]. split.
  - apply List.Forall_map. apply List.Forall_forall. intros instr _.
    apply hex_fixed_image_line.
  - intros i instr Hi. eexists. split.
    + rewrite list_lookup_fmap, Hi. reflexivity.
    + apply hex_fixed_8_value. apply masked_word32.
Qed.

(** The first words of the shipped program, and a word wider than 32 bits. *)
Example firmware_hex_sample :
  firmware_hex [addi x1 x0 42; jal x16 8; -1; 2 ^ 32 + 5] =
    unlines ["02A00093"; "0080086F"; "FFFFFFFF"; "00000005"]%string.
Proof. reflexivity. Qed.

(** ** Further properties of the waiters *)

Lemma wait_reg_loop_first (dut : dut_handle) (idx val : Z) (n : nat) (s : sim) (t0 : nat) :
  (edges s < t0 <= edges s + n)%nat ->
  get_reg (dut t0) idx = Ret val ->
  (forall t : nat, (edges s < t < t0)%nat -> get_reg (dut t) idx <> Ret val) ->
  wait_reg_loop dut idx val n s = (Ret true, {| edges := t0; log := log s |}).
Proof.
  revert s. induction n as [| n IH]; intros s Ht0 Hhit Hbefore; [lia |].
  rewrite wait_reg_loop_step.
  destruct (Nat.eq_dec t0 (S (edges s))) as [-> | Hlater].
  - rewrite Hhit, Z.eqb_refl. reflexivity.
  - assert (Hrec : wait_reg_loop dut idx val n (tick s) =
                   (Ret true, {| edges := t0; log := log s |})).
    { apply (IH (tick s)); cbn [tick edges]; try assumption; try lia.
      intros t Ht. apply Hbefore. lia. }
    destruct (get_reg (dut (S (edges s))) idx) as [v | e] eqn:Hsample; [| exact Hrec].
    destruct (Z.eqb_spec v val) as [-> | Hne]; [| exact Hrec].
    exfalso. apply (Hbefore (S (edges s))); [lia | exact Hsample].
Qed.

Lemma wait_reg_nonzero_loop_first
    (dut : dut_handle) (idx : Z) (n : nat) (s : sim) (t0 : nat) (v0 : Z) :
  (edges s < t0 <= edges s + n)%nat ->
  get_reg (dut t0) idx = Ret v0 -> v0 <> 0 ->
  (forall (t : nat) (v : Z), (edges s < t < t0)%nat -> get_reg (dut t) idx = Ret v -> v = 0) ->
  wait_reg_nonzero_loop dut idx n s = (Ret true, {| edges := t0; log := log s |}).
Proof.
  revert s. induction n as [| n IH]; intros s Ht0 Hhit Hv0 Hbefore; [lia |].
  rewrite wait_reg_nonzero_loop_step.
  destruct (Nat.eq_dec t0 (S (edges s))) as [-> | Hlater].
  - rewrite Hhit. destruct (Z.eqb_spec v0 0) as [-> | _]; [contradiction | reflexivity].
  - assert (Hrec : wait_reg_nonzero_loop dut idx n (tick s) =
                   (Ret true, {| edges := t0; log := log s |})).
    { apply (IH (tick s)); cbn [tick edges]; try assumption; try lia.
      intros t v Ht. apply Hbefore. lia. }
    destruct (get_reg (dut (S (edges s))) idx) as [v | e] eqn:Hsample; [| exact Hrec].
    destruct (Z.eqb_spec v 0) as [-> | Hne]; cbn [negb]; [exact Hrec |].
    exfalso. apply Hne. apply (Hbefore (S (edges s)) v); [lia | exact Hsample].
Qed.

(** X1: a waiter that meets its condition within the bound returns [True]
    at the first edge whose sample satisfies it, having consumed the edges up
    to that one and no more, and without logging anything.  Samples that
    raise before that edge do not stop it. *)
Theorem waiters_return_at_first_match
    (dut : dut_handle) (idx val timeout : Z) (s : sim) (t0 : nat) :
  (edges s < t0 <= edges s + Z.to_nat timeout)%nat ->
  (get_reg (dut t0) idx = Ret val ->
   (forall t : nat, (edges s < t < t0)%nat -> get_reg (dut t) idx <> Ret val) ->
   wait_reg dut idx val timeout s = (Ret true, {| edges := t0; log := log s |})) /\
  (forall v0 : Z,
     get_reg (dut t0) idx = Ret v0 -> v0 <> 0 ->
     (forall (t : nat) (v : Z), (edges s < t < t0)%nat ->
        get_reg (dut t) idx = Ret v -> v = 0) ->
     wait_reg_nonzero dut idx timeout s = (Ret true, {| edges := t0; log := log s |})).
Proof.
  intros Ht0. split.
  - intros Hhit Hbefore. unfold wait_reg, bind.
    rewrite (wait_reg_loop_first _ _ _ _ _ t0 Ht0 Hhit Hbefore). reflexivity.
  - intros v0 Hhit Hv0 Hbefore. unfold wait_reg_nonzero.
    exact (wait_reg_nonzero_loop_first _ _ _ _ t0 v0 Ht0 Hhit Hv0 Hbefore).
Qed.

(** A register that cannot be read on odd edges and reads 7 on even ones is
    found equal to 7, and nonzero, at edge 2. *)
Lemma waiters_return_at_first_match_witness :
  wait_reg dut_flaky_7 5 7 10 fresh = (Ret true, {| edges := 2; log := [] |}) /\
  wait_reg_nonzero dut_flaky_7 5 10 fresh = (Ret true, {| edges := 2; log := [] |}).
Proof.
  assert (Hwin : (edges fresh < 2 <= edges fresh + Z.to_nat 10)%nat)
    by (cbn; lia).
  destruct (waiters_return_at_first_match dut_flaky_7 5 7 10 fresh 2 Hwin) as [Heq Hnz].
  split.
  - apply Heq; [reflexivity |].
    intros t Ht. cbn in Ht. replace t with 1%nat by lia. discriminate.
  - apply (Hnz 7); [reflexivity | lia |].
    intros t v Ht. cbn in Ht. replace t with 1%nat by lia. discriminate.
Defined.

(** X2: with a timeout of zero or less the loop body never runs: [wait_reg]
    logs its warning and returns [False], and [wait_reg_nonzero] returns
    [False], both at once (no edge is consumed) and whatever the device
    shows, even if the condition holds. *)
Theorem waiters_nonpositive_timeout
    (dut : dut_handle) (idx val timeout : Z) (s : sim) :
  timeout <= 0 ->
  wait_reg dut idx val timeout s =
    (Ret false, {| edges := edges s; log := log s ++ [timeout_message idx val] |}) /\
  wait_reg_nonzero dut idx timeout s = (Ret false, s).
Proof.
  intros Hneg. unfold wait_reg, wait_reg_nonzero, bind.
  replace (Z.to_nat timeout) with 0%nat by lia. split; reflexivity.
Qed.

Lemma waiters_nonpositive_timeout_witness :
  get_reg (dut_all_52 (edges fresh)) 3 = Ret 52 /\
  wait_reg dut_all_52 3 52 0 fresh =
    (Ret false, {| edges := 0; log := ["Timeout waiting for x3 = 0x00000034"%string] |}) /\
  wait_reg_nonzero dut_all_52 3 (-5) fresh = (Ret false, fresh).
Proof.
  split; [reflexivity |]. split.
  - exact (proj1 (waiters_nonpositive_timeout dut_all_52 3 52 0 fresh ltac:(lia))).
  - exact (proj2 (waiters_nonpositive_timeout dut_all_52 3 52 (-5) fresh ltac:(lia))).
Defined.

(** X3: waiting on register 0.  Whatever the device does, register 0 is
    found equal to 0 after one edge; it is never found equal to a nonzero
    value, and never found nonzero: those waits run to the end of the
    timeout and return [False]. *)
Theorem waiters_on_register_zero
    (dut : dut_handle) (val timeout : Z) (s : sim) :
  (1 <= timeout -> wait_reg dut 0 0 timeout s = (Ret true, tick s)) /\
  (val <> 0 ->
   wait_reg dut 0 val timeout s =
     (Ret false, {| edges := edges s + Z.to_nat timeout;
                    log := log s ++ [timeout_message 0 val] |})) /\
  wait_reg_nonzero dut 0 timeout s =
    (Ret false, {| edges := edges s + Z.to_nat timeout; log := log s |}).
Proof.
  repeat split.
  - intros Hpos. unfold wait_reg, bind.
    rewrite (wait_reg_loop_first dut 0 0 _ s (S (edges s))).
    + reflexivity.
    + lia.
    + reflexivity.
    + intros t Ht. lia.
  - intros Hval. unfold wait_reg, bind.
    rewrite wait_reg_loop_false; [reflexivity |].
    intros t _ H. cbn in H. inversion H. congruence.
  - unfold wait_reg_nonzero. apply wait_reg_nonzero_loop_false.
    intros t v _ H. cbn in H. inversion H. reflexivity.
Qed.

Lemma waiters_on_register_zero_witness :
  wait_reg dut_unreadable 0 0 3 fresh = (Ret true, tick fresh) /\
  wait_reg dut_all_52 0 52 3 fresh =
    (Ret false, {| edges := 3; log := ["Timeout waiting for x0 = 0x00000034"%string] |}) /\
  wait_reg_nonzero dut_all_52 0 3 fresh = (Ret false, {| edges := 3; log := [] |}).
Proof.
  destruct (waiters_on_register_zero dut_unreadable 52 3 fresh) as (H0 & _ & _).
  destruct (waiters_on_register_zero dut_all_52 52 3 fresh) as (_ & Hval & Hnz).
  split; [apply H0; lia |]. split; [apply Hval; lia | exact Hnz].
Defined.

Lemma wait_reg_loop_more (dut : dut_handle) (idx val : Z) (n m : nat) (s s' : sim) :
  wait_reg_loop dut idx val n s = (Ret true, s') -> (n <= m)%nat ->
  wait_reg_loop dut idx val m s = (Ret true, s').
Proof.
  intros Hrun Hnm.
  destruct (wait_reg_loop_true _ _ _ _ _ _ Hrun) as (Hedges & Hlog & Hval & Hbefore).
  rewrite (wait_reg_loop_first dut idx val m s (edges s')); try assumption; try lia.
  destruct s' as [e' l']. cbn [edges log] in *. rewrite Hlog. reflexivity.
Qed.

Lemma wait_reg_nonzero_loop_more (dut : dut_handle) (idx : Z) (n m : nat) (s s' : sim) :
  wait_reg_nonzero_loop dut idx n s = (Ret true, s') -> (n <= m)%nat ->
  wait_reg_nonzero_loop dut idx m s = (Ret true, s').
Proof.
  revert m s. induction n as [| n IH]; intros m s Hrun Hnm.
  - discriminate Hrun.
  - destruct m as [| m]; [lia |].
    rewrite wait_reg_nonzero_loop_step in *.
    destruct (get_reg (dut (S (edges s))) idx) as [v | e].
    + destruct (negb (v =? 0)); [exact Hrun | apply IH; [exact Hrun | lia]].
    + apply IH; [exact Hrun | lia].
Qed.

(** X4: a larger timeout never changes a success: if a waiter returns
    [True] with some timeout, it returns [True] in the same final state with
    every larger one. *)
Theorem waiters_success_stable_under_longer_timeout
    (dut : dut_handle) (idx val timeout timeout' : Z) (s s' : sim) :
  timeout <= timeout' ->
  (wait_reg dut idx val timeout s = (Ret true, s') ->
   wait_reg dut idx val timeout' s = (Ret true, s')) /\
  (wait_reg_nonzero dut idx timeout s = (Ret true, s') ->
   wait_reg_nonzero dut idx timeout' s = (Ret true, s')).
Proof.
  intros Hle. split.
  - unfold wait_reg, bind. intros Hrun.
    assert (Hloop : wait_reg_loop dut idx val (Z.to_nat timeout) s = (Ret true, s')).
    { revert Hrun.
      destruct (wait_reg_loop dut idx val (Z.to_nat timeout) s) as [[[|] | e] s1];
        cbn; intros H; inversion H; reflexivity. }
    rewrite (wait_reg_loop_more _ _ _ _ (Z.to_nat timeout') _ _ Hloop) by lia.
    reflexivity.
  - unfold wait_reg_nonzero. intros Hrun.
    apply (wait_reg_nonzero_loop_more _ _ (Z.to_nat timeout)); [exact Hrun | lia].
Qed.

Lemma waiters_success_stable_under_longer_timeout_witness :
  wait_reg dut_counting 5 3 100000 fresh = (Ret true, {| edges := 3; log := [] |}) /\
  wait_reg_nonzero dut_counting 5 100000 fresh = (Ret true, {| edges := 1; log := [] |}).
Proof.
  destruct (waiters_success_stable_under_longer_timeout dut_counting 5 3 4 100000 fresh
              {| edges := 3; log := [] |} ltac:(lia)) as [Heq _].
  destruct (waiters_success_stable_under_longer_timeout dut_counting 5 3 4 100000 fresh
              {| edges := 1; log := [] |} ltac:(lia)) as [_ Hnz].
  split; [apply Heq | apply Hnz]; reflexivity.
Defined.

Lemma wait_reg_loop_nonzero_earlier
    (dut : dut_handle) (idx val : Z) (n : nat) (s s1 : sim) :
  val <> 0 ->
  wait_reg_loop dut idx val n s = (Ret true, s1) ->
  exists s2 : sim,
    wait_reg_nonzero_loop dut idx n s = (Ret true, s2) /\
    (edges s2 <= edges s1)%nat.
Proof.
  intros Hval. revert s. induction n as [| n IH]; intros s Hrun.
  - discriminate Hrun.
  - rewrite wait_reg_loop_step in Hrun. rewrite wait_reg_nonzero_loop_step.
    assert (Hmono : forall s0, wait_reg_loop dut idx val n (tick s) = (Ret true, s0) ->
                               (S (edges s) <= edges s0)%nat).
    { intros s0 H0. destruct (wait_reg_loop_true _ _ _ _ _ _ H0) as (He & _).
      cbn [tick edges] in He. lia. }
    destruct (get_reg (dut (S (edges s))) idx) as [v | e].
    + destruct (Z.eqb_spec v val) as [Heq | Hne].
      * subst v. inversion Hrun; subst s1.
        destruct (Z.eqb_spec val 0) as [H0 | _]; [contradiction |].
        exists (tick s). split; [reflexivity | lia].
      * destruct (Z.eqb_spec v 0) as [-> | Hnz]; cbn [negb].
        -- apply IH. exact Hrun.
        -- exists (tick s). split; [reflexivity | apply Hmono; exact Hrun].
    + apply IH. exact Hrun.
Qed.

(** X5: a register that is found equal to a nonzero value is found nonzero
    no later: if [wait_reg] succeeds for [val <> 0], then
    [wait_reg_nonzero] with the same timeout succeeds too, after at most as
    many edges. *)
Theorem wait_reg_nonzero_no_later_than_wait_reg
    (dut : dut_handle) (idx val timeout : Z) (s s1 : sim) :
  val <> 0 ->
  wait_reg dut idx val timeout s = (Ret true, s1) ->
  exists s2 : sim,
    wait_reg_nonzero dut idx timeout s = (Ret true, s2) /\
    (edges s2 <= edges s1)%nat.
Proof.
  intros Hval Hrun. unfold wait_reg_nonzero.
  apply (wait_reg_loop_nonzero_earlier dut idx val _ s s1 Hval).
  revert Hrun. unfold wait_reg, bind.
  destruct (wait_reg_loop dut idx val (Z.to_nat timeout) s) as [[[|] | e] s0];
    cbn; intros H; inversion H; reflexivity.
Qed.

Lemma wait_reg_nonzero_no_later_than_wait_reg_witness :
  exists s2 : sim,
    wait_reg_nonzero dut_counting 5 10 fresh = (Ret true, s2) /\
    (edges s2 <= 3)%nat.
Proof.
  apply (wait_reg_nonzero_no_later_than_wait_reg dut_counting 5 3 10 fresh
           {| edges := 3; log := [] |}); [lia | reflexivity].
Defined.

Lemma wait_reg_loop_frame (dut : dut_handle) (idx val : Z) (n : nat) (s : sim) :
  exists (b : bool) (s' : sim),
    wait_reg_loop dut idx val n s = (Ret b, s') /\
    log s' = log s /\
    (edges s <= edges s' <= edges s + n)%nat /\
    (b = false -> edges s' = (edges s + n)%nat).
Proof.
  revert s. induction n as [| n IH]; intros s.
  - exists false, s. repeat split; lia.
  - rewrite wait_reg_loop_step.
    assert (Hrec : exists (b : bool) (s' : sim),
               wait_reg_loop dut idx val n (tick s) = (Ret b, s') /\
               log s' = log s /\
               (edges s <= edges s' <= edges s + S n)%nat /\
               (b = false -> edges s' = (edges s + S n)%nat)).
    { destruct (IH (tick s)) as (b & s' & Hrun & Hlog & Hedges & Hfalse).
      cbn [tick edges log] in *. exists b, s'. repeat split; try assumption; try lia.
      intros Hb. specialize (Hfalse Hb). lia. }
    destruct (get_reg (dut (S (edges s))) idx) as [v | e]; [| exact Hrec].
    destruct (v =? val); [| exact Hrec].
    exists true, (tick s). cbn [tick edges log].
    repeat split; try lia; discriminate.
Qed.

Lemma wait_reg_nonzero_loop_frame (dut : dut_handle) (idx : Z) (n : nat) (s : sim) :
  exists (b : bool) (s' : sim),
    wait_reg_nonzero_loop dut idx n s = (Ret b, s') /\
    log s' = log s /\
    (edges s <= edges s' <= edges s + n)%nat /\
    (b = false -> edges s' = (edges s + n)%nat).
Proof.
  revert s. induction n as [| n IH]; intros s.
  - exists false, s. repeat split; lia.
  - rewrite wait_reg_nonzero_loop_step.
    assert (Hrec : exists (b : bool) (s' : sim),
               wait_reg_nonzero_loop dut idx n (tick s) = (Ret b, s') /\
               log s' = log s /\
               (edges s <= edges s' <= edges s + S n)%nat /\
               (b = false -> edges s' = (edges s + S n)%nat)).
    { destruct (IH (tick s)) as (b & s' & Hrun & Hlog & Hedges & Hfalse).
      cbn [tick edges log] in *. exists b, s'. repeat split; try assumption; try lia.
      intros Hb. specialize (Hfalse Hb). lia. }
    destruct (get_reg (dut (S (edges s))) idx) as [v | e]; [| exact Hrec].
    destruct (negb (v =? 0)); [| exact Hrec].
    exists true, (tick s). cbn [tick edges log].
    repeat split; try lia; discriminate.
Qed.

(** X6: what a waiter can do to the simulation, in every case.  Each waiter
    returns a boolean (it never raises), consumes at most
    [len(range(timeout))] edges and all of them when it returns [False].
    [wait_reg] logs exactly its one warning when it returns [False] and
    nothing when it returns [True]; [wait_reg_nonzero] never logs. *)
Theorem waiters_frame (dut : dut_handle) (idx val timeout : Z) (s : sim) :
  (exists (b : bool) (s' : sim),
     wait_reg dut idx val timeout s = (Ret b, s') /\
     (edges s <= edges s' <= edges s + Z.to_nat timeout)%nat /\
     (b = false -> edges s' = (edges s + Z.to_nat timeout)%nat) /\
     log s' = (if b then log s else log s ++ [timeout_message idx val])) /\
  (exists (b : bool) (s' : sim),
     wait_reg_nonzero dut idx timeout s = (Ret b, s') /\
     (edges s <= edges s' <= edges s + Z.to_nat timeout)%nat /\
     (b = false -> edges s' = (edges s + Z.to_nat timeout)%nat) /\
     log s' = log s).
Proof.
  split.
  - destruct (wait_reg_loop_frame dut idx val (Z.to_nat timeout) s)
      as (b & s' & Hrun & Hlog & Hedges & Hfalse).
    unfold wait_reg, bind. rewrite Hrun. destruct b; cbn.
    + exists true, s'. repeat split; try assumption; try lia.
    + eexists false, _. split; [reflexivity |]. cbn [edges log].
      rewrite Hlog. repeat split; try assumption; lia.
  - destruct (wait_reg_nonzero_loop_frame dut idx (Z.to_nat timeout) s)
      as (b & s' & Hrun & Hlog & Hedges & Hfalse).
    exists b, s'. repeat split; try assumption; lia.
Qed.

(** ** Further properties of the encoders *)

Section OpcodeField.

Variables funct7 rs2 rs1 funct3 rd imm opcode : Z.
Hypothesis Hopcode : is_opcode opcode.

(** Operands of any size leave the seven low bits to the opcode. *)
Lemma opcode_of_formats :
  opcode_of (r_type funct7 rs2 rs1 funct3 rd opcode) = opcode /\
  opcode_of (i_type imm rs1 funct3 rd opcode) = opcode /\
  opcode_of (s_type imm rs2 rs1 funct3 opcode) = opcode /\
  opcode_of (b_type imm rs2 rs1 funct3 opcode) = opcode /\
  opcode_of (u_type imm rd opcode) = opcode /\
  opcode_of (j_type imm rd opcode) = opcode.
Proof.
  revert Hopcode. unfold is_opcode, opcode_of, bits. intros.
  unfold r_type, i_type, s_type, b_type, u_type, j_type. cbv zeta.
  repeat split; bitblast.
Qed.

End OpcodeField.

Lemma opcode_of_csr (rd csr rs1 : Z) :
  opcode_of (csrrw rd csr rs1) = 0x73 /\ opcode_of (csrrs rd csr rs1) = 0x73.
Proof.
  assert (H : forall f3 op : Z, 0 <= op < 128 ->
            opcode_of (Z.lor (Z.lor (Z.lor (Z.lor (Z.shiftl csr 20) (Z.shiftl rs1 15))
                        (Z.shiftl f3 12)) (Z.shiftl rd 7)) op) = op).
  { intros f3 op Hop. unfold opcode_of, bits. bitblast. }
  split; [apply (H 1 0x73) | apply (H 2 0x73)]; lia.
Qed.

Lemma low_bits_of_opcode (w op : Z) :
  opcode_of w = op -> Z.land op 3 = 3 -> Z.land w 3 = 3.
Proof.
  unfold opcode_of, bits. intros <- <-.
  change 3 with (Z.ones 2). bitblast.
Qed.

(** X7: whatever integers the operands are, in range or not, the seven low
    bits of the word of every mnemonic are the opcode the source gives it,
    and the two lowest bits are 11: no operand can turn a word into another
    instruction class or into a 16-bit (compressed) encoding. *)
Theorem mnemonics_keep_their_opcode (rd rs1 rs2 csr shamt imm : Z) :
  Forall (fun entry => opcode_of (fst entry) = snd entry /\ Z.land (fst entry) 3 = 3)
    (mnemonic_words rd rs1 rs2 csr shamt imm).
Proof.
  assert (Hop : Forall (fun entry => opcode_of (fst entry) = snd entry)
                  (mnemonic_words rd rs1 rs2 csr shamt imm)).
  { unfold mnemonic_words.
    repeat (apply List.Forall_cons; [cbn [fst snd] |]); [.. | apply List.Forall_nil].
    all: unfold_wrappers.
    all: lazymatch goal with
         | |- opcode_of (r_type ?a ?b ?c ?d ?e ?o) = _ =>
             apply (opcode_of_formats a b c d e 0 o); unfold is_opcode; lia
         | |- opcode_of (i_type ?i ?c ?d ?e ?o) = _ =>
             apply (opcode_of_formats 0 0 c d e i o); unfold is_opcode; lia
         | |- opcode_of (s_type ?i ?b ?c ?d ?o) = _ =>
             apply (opcode_of_formats 0 b c d 0 i o); unfold is_opcode; lia
         | |- opcode_of (b_type ?i ?b ?c ?d ?o) = _ =>
             apply (opcode_of_formats 0 b c d 0 i o); unfold is_opcode; lia
         | |- opcode_of (u_type ?i ?e ?o) = _ =>
             apply (opcode_of_formats 0 0 0 0 e i o); unfold is_opcode; lia
         | |- opcode_of (j_type ?i ?e ?o) = _ =>
             apply (opcode_of_formats 0 0 0 0 e i o); unfold is_opcode; lia
         | |- opcode_of ecall = _ => reflexivity
         | |- opcode_of (csrrw _ _ _) = _ => apply opcode_of_csr
         | |- opcode_of (csrrs _ _ _) = _ => apply opcode_of_csr
         end. }
  apply List.Forall_forall. intros entry Hin.
  pose proof (proj1 (List.Forall_forall _ _) Hop entry Hin) as Hentry.
  split; [exact Hentry |].
  apply (low_bits_of_opcode _ _ Hentry).
  unfold mnemonic_words in Hin. cbn [List.In] in Hin.
  repeat (destruct Hin as [<- | Hin]; [reflexivity |]). contradiction.
Qed.

Lemma bit30_of_funct7 (w : Z) : bits w 30 30 = bits (funct7_of w) 5 5.
Proof. unfold funct7_of, bits. bitblast. Qed.

Lemma bit30_of_i_imm (w : Z) : bits w 30 30 = bits (i_imm_raw w) 10 10.
Proof. unfold i_imm_raw, bits. bitblast. Qed.

Lemma signature_r_type (funct7 rs2 rs1 funct3 rd opcode : Z) :
  is_funct7 funct7 -> is_reg rs2 -> is_reg rs1 -> is_funct3 funct3 ->
  is_reg rd -> is_opcode opcode ->
  signature (r_type funct7 rs2 rs1 funct3 rd opcode) =
    signature_from opcode funct3 (bits funct7 5 5).
Proof.
  intros H7 H2 H1 H3 Hd Ho. unfold signature. rewrite bit30_of_funct7.
  destruct (r_type_fields funct7 rs2 rs1 funct3 rd opcode H7 H2 H1 H3 Hd Ho)
    as (-> & _ & _ & -> & _ & ->).
  reflexivity.
Qed.

Lemma signature_i_type (imm rs1 funct3 rd opcode : Z) :
  is_reg rs1 -> is_funct3 funct3 -> is_reg rd -> is_opcode opcode ->
  signature (i_type imm rs1 funct3 rd opcode) =
    signature_from opcode funct3 (bits (Z.land imm 0xFFF) 10 10).
Proof.
  intros H1 H3 Hd Ho. unfold signature. rewrite bit30_of_i_imm.
  destruct (i_type_fields imm rs1 funct3 rd opcode H1 H3 Hd Ho)
    as (-> & _ & -> & _ & ->).
  reflexivity.
Qed.

Lemma signature_s_type (imm rs2 rs1 funct3 opcode : Z) :
  is_reg rs2 -> is_reg rs1 -> is_funct3 funct3 -> is_opcode opcode ->
  exists bit30 : Z,
    signature (s_type imm rs2 rs1 funct3 opcode) = signature_from opcode funct3 bit30.
Proof.
  intros H2 H1 H3 Ho. unfold signature.
  destruct (s_type_fields imm rs2 rs1 funct3 opcode H2 H1 H3 Ho)
    as (_ & _ & _ & -> & ->).
  eexists. reflexivity.
Qed.

Lemma signature_b_type (imm rs2 rs1 funct3 opcode : Z) :
  is_reg rs2 -> is_reg rs1 -> is_funct3 funct3 -> is_opcode opcode ->
  exists bit30 : Z,
    signature (b_type imm rs2 rs1 funct3 opcode) = signature_from opcode funct3 bit30.
Proof.
  intros H2 H1 H3 Ho. unfold signature.
  destruct (b_type_fields imm rs2 rs1 funct3 opcode H2 H1 H3 Ho)
    as (_ & _ & _ & -> & ->).
  eexists. reflexivity.
Qed.

Lemma signature_u_type (imm rd opcode : Z) :
  is_reg rd -> is_opcode opcode ->
  exists funct3 bit30 : Z,
    signature (u_type imm rd opcode) = signature_from opcode funct3 bit30.
Proof.
  intros Hd Ho. unfold signature.
  destruct (u_type_fields imm rd opcode Hd Ho) as (_ & _ & ->).
  eexists _, _. reflexivity.
Qed.

Lemma signature_j_type (imm rd opcode : Z) :
  is_reg rd -> is_opcode opcode ->
  exists funct3 bit30 : Z,
    signature (j_type imm rd opcode) = signature_from opcode funct3 bit30.
Proof.
  intros Hd Ho. unfold signature.
  destruct (j_type_fields imm rd opcode Hd Ho) as (_ & _ & ->).
  eexists _, _. reflexivity.
Qed.

Lemma csr_as_i_type (rd csr rs1 : Z) :
  is_csr csr ->
  csrrw rd csr rs1 = i_type csr rs1 1 rd 0x73 /\
  csrrs rd csr rs1 = i_type csr rs1 2 rd 0x73.
Proof.
  unfold is_csr. intros Hcsr. unfold csrrw, csrrs, i_type.
  change 0xFFF with (Z.ones 12). rewrite Z.land_ones, Z.mod_small by lia.
  split; reflexivity.
Qed.

Lemma shift_amount_bit10 (shamt : Z) :
  is_shamt shamt ->
  bits (Z.land shamt 0xFFF) 10 10 = 0 /\
  bits (Z.land (Z.lor 0x400 shamt) 0xFFF) 10 10 = 1.
Proof.
  unfold is_shamt, bits. intros Hs.
  change 0x400 with (Z.shiftl (Z.ones 1) 10). change 1 with (Z.ones 1) at 4.
  split; bitblast.
Qed.

Lemma signature_table_NoDup : NoDup signature_table.
Proof. apply (bool_decide_unpack _). vm_compute. exact I. Qed.

Ltac const_domain := unfold_domains; lia.

(** For operands in range, every mnemonic has the signature the table
    gives it. *)
Lemma mnemonic_signatures (rd rs1 rs2 csr shamt imm : Z) :
  is_reg rd -> is_reg rs1 -> is_reg rs2 -> is_csr csr -> is_shamt shamt ->
  map (fun entry => signature (fst entry)) (mnemonic_words rd rs1 rs2 csr shamt imm) =
    signature_table.
Proof.
  intros Hrd Hrs1 Hrs2 Hcsr Hshamt.
  destruct (shift_amount_bit10 shamt Hshamt) as [Hlogical Harith].
  destruct (csr_as_i_type rd csr rs1 Hcsr) as [Hrw Hrs].
  unfold mnemonic_words, signature_table. cbn [map fst]. rewrite Hrw, Hrs.
  unfold_wrappers.
  repeat match goal with
  | |- context [signature (r_type ?a ?b ?c ?d ?e ?o)] =>
      rewrite (signature_r_type a b c d e o) by (assumption || const_domain)
  | |- context [signature (i_type ?i ?c ?d ?e ?o)] =>
      rewrite (signature_i_type i c d e o) by (assumption || const_domain)
  end.
  rewrite Hlogical, Harith.
  destruct (signature_s_type imm rs2 rs1 2 0x23) as [? ->]; try assumption; try const_domain.
  destruct (signature_s_type imm rs2 rs1 1 0x23) as [? ->]; try assumption; try const_domain.
  destruct (signature_s_type imm rs2 rs1 0 0x23) as [? ->]; try assumption; try const_domain.
  destruct (signature_b_type imm rs2 rs1 0 0x63) as [? ->]; try assumption; try const_domain.
  destruct (signature_b_type imm rs2 rs1 1 0x63) as [? ->]; try assumption; try const_domain.
  destruct (signature_b_type imm rs2 rs1 4 0x63) as [? ->]; try assumption; try const_domain.
  destruct (signature_b_type imm rs2 rs1 5 0x63) as [? ->]; try assumption; try const_domain.
  destruct (signature_u_type imm rd 0x37) as (? & ? & ->); try assumption; try const_domain.
  destruct (signature_u_type imm rd 0x17) as (? & ? & ->); try assumption; try const_domain.
  destruct (signature_j_type imm rd 0x6F) as (? & ? & ->); try assumption; try const_domain.
  repeat match goal with
  | |- context [bits (Z.land ?i 0xFFF) 10 10] => generalize (bits (Z.land i 0xFFF) 10 10); intros ?
  end.
  reflexivity.
Qed.

(** X8: two different mnemonics never produce the same word when their
    register, CSR and shift operands are in range, whatever the immediates
    and even if the operands differ: each mnemonic's word carries its own
    opcode / funct3 / bit-30 signature, and the thirty signatures are
    pairwise distinct. *)
Theorem distinct_mnemonics_distinct_words
    (rd rs1 rs2 csr shamt imm rd' rs1' rs2' csr' shamt' imm' : Z)
    (i j : nat) (w w' op op' : Z) :
  is_reg rd -> is_reg rs1 -> is_reg rs2 -> is_csr csr -> is_shamt shamt ->
  is_reg rd' -> is_reg rs1' -> is_reg rs2' -> is_csr csr' -> is_shamt shamt' ->
  mnemonic_words rd rs1 rs2 csr shamt imm !! i = Some (w, op) ->
  mnemonic_words rd' rs1' rs2' csr' shamt' imm' !! j = Some (w', op') ->
  i <> j -> w <> w'.
Proof.
  intros Hrd Hrs1 Hrs2 Hcsr Hshamt Hrd' Hrs1' Hrs2' Hcsr' Hshamt' Hi Hj Hij Heq.
  apply Hij. apply (NoDup_lookup signature_table i j (signature w) signature_table_NoDup).
  - rewrite <- (mnemonic_signatures rd rs1 rs2 csr shamt imm) by assumption.
    rewrite list_lookup_fmap, Hi. reflexivity.
  - rewrite <- (mnemonic_signatures rd' rs1' rs2' csr' shamt' imm') by assumption.
    rewrite list_lookup_fmap, Hj, Heq. reflexivity.
Qed.

(** SRLI x1, x2, 4 against SRAI x5, x6, 7. *)
Lemma distinct_mnemonics_distinct_words_witness :
  (is_reg 1 /\ is_reg 2 /\ is_shamt 4 /\ is_reg 5 /\ is_reg 6 /\ is_shamt 7) /\
  srli 1 2 4 <> srai 5 6 7.
Proof.
  split; [unfold_domains; lia |].
  apply (distinct_mnemonics_distinct_words 1 2 3 0xB00 4 (-1) 5 6 7 0x300 7 100
           7 8 (srli 1 2 4) (srai 5 6 7) 0x13 0x13);
    try (unfold_domains; lia); try reflexivity.
Defined.

Lemma decode_after_encode (ins : instr) :
  legal ins -> decode (format_of ins) (encode ins) = ins.
Proof.
  destruct ins as [funct7 rs2 rs1 funct3 rd opcode | imm rs1 funct3 rd opcode
                  | imm rs2 rs1 funct3 opcode | imm rs2 rs1 funct3 opcode
                  | imm rd opcode | imm rd opcode]; cbn [legal format_of encode decode].
  - intros (H7 & H2 & H1 & H3 & Hd & Ho).
    destruct (r_type_fields _ _ _ _ _ _ H7 H2 H1 H3 Hd Ho) as (-> & -> & -> & -> & -> & ->).
    reflexivity.
  - intros (Hi & H1 & H3 & Hd & Ho). unfold i_imm.
    destruct (i_type_fields imm _ _ _ _ H1 H3 Hd Ho) as (-> & -> & -> & -> & ->).
    rewrite i_imm_roundtrip by exact Hi. reflexivity.
  - intros (Hi & H2 & H1 & H3 & Ho). unfold s_imm.
    destruct (s_type_fields imm _ _ _ _ H2 H1 H3 Ho) as (-> & -> & -> & -> & ->).
    rewrite i_imm_roundtrip by exact Hi. reflexivity.
  - intros (Hi & H2 & H1 & H3 & Ho). unfold b_imm.
    destruct (b_type_fields imm _ _ _ _ H2 H1 H3 Ho) as (-> & -> & -> & -> & ->).
    rewrite b_imm_roundtrip by exact Hi. reflexivity.
  - intros (Hi & Hd & Ho).
    destruct (u_type_fields imm _ _ Hd Ho) as (-> & -> & ->).
    rewrite Hi. reflexivity.
  - intros (Hi & Hd & Ho). unfold j_imm.
    destruct (j_type_fields imm _ _ Hd Ho) as (-> & -> & ->).
    rewrite j_imm_roundtrip by exact Hi. reflexivity.
Qed.

(** X9: within one format, different operand tuples whose operands are all
    in range never encode to the same word. *)
Theorem distinct_instructions_distinct_words (a b : instr) :
  legal a -> legal b -> format_of a = format_of b -> a <> b ->
  encode a <> encode b.
Proof.
  intros Ha Hb Hfmt Hne Henc. apply Hne.
  rewrite <- (decode_after_encode a Ha), <- (decode_after_encode b Hb).
  rewrite Hfmt, Henc. reflexivity.
Qed.

(** Two branches that differ only in an offset at the two ends of the
    range. *)
Lemma distinct_instructions_distinct_words_witness :
  (legal (InsB (-4096) 2 1 0 0x63) /\ legal (InsB 4094 2 1 0 0x63)) /\
  encode (InsB (-4096) 2 1 0 0x63) <> encode (InsB 4094 2 1 0 0x63).
Proof.
  split; [split; legal_by_evaluation |].
  apply distinct_instructions_distinct_words.
  - legal_by_evaluation.
  - legal_by_evaluation.
  - reflexivity.
  - discriminate.
Defined.

(** ** Further properties of the serializer *)

Lemma firmware_hex_unlines (prog : list Z) :
  firmware_hex prog =
    unlines (map (fun instr => hex_fixed 8 (Z.land instr 0xFFFFFFFF) EmptyString) prog).
Proof.
  unfold firmware_hex. rewrite write_program_unlines. cbn [String.append].
  f_equal. apply map_ext. intros instr.
  apply format_08X_fixed. apply masked_word32.
Qed.

Lemma lines_firmware_hex (prog : list Z) :
  lines (firmware_hex prog) =
    map (fun instr => hex_fixed 8 (Z.land instr 0xFFFFFFFF) EmptyString) prog.
Proof.
  rewrite firmware_hex_unlines. apply lines_unlines. apply List.Forall_map.
  apply List.Forall_forall. intros instr _. apply hex_fixed_image_line.
Qed.

Lemma unlines_app (a b : list string) :
  unlines (a ++ b) = String.append (unlines a) (unlines b).
Proof.
  induction a as [| l a IH]; cbn [unlines app]; [reflexivity |].
  rewrite IH, append_assoc. reflexivity.
Qed.

Lemma unlines_length_fixed (ls : list string) (k : nat) :
  Forall (fun l => String.length l = k) ls ->
  String.length (unlines ls) = (S k * length ls)%nat.
Proof.
  induction 1 as [| l ls Hl _ IH]; cbn [unlines length].
  - cbn [String.length]. lia.
  - rewrite length_append. cbn [String.length]. rewrite IH, Hl. lia.
Qed.

(** X10: the file is built word by word: the file of a concatenation is the
    concatenation of the files, the file of the empty program is empty, and
    the file of [n] words has exactly [9 * n] characters (8 digits and a
    newline per word), however large or negative the words are. *)
Theorem firmware_hex_composes (p q : list Z) :
  firmware_hex (p ++ q) = String.append (firmware_hex p) (firmware_hex q) /\
  firmware_hex [] = EmptyString /\
  String.length (firmware_hex p) = (9 * length p)%nat.
Proof.
  split; [| split].
  - rewrite !firmware_hex_unlines, map_app. apply unlines_app.
  - reflexivity.
  - rewrite firmware_hex_unlines, (unlines_length_fixed _ 8).
    + rewrite length_map. reflexivity.
    + apply List.Forall_map. apply List.Forall_forall. intros instr _.
      apply hex_fixed_length.
Qed.

Lemma read_words_fixed (ws : list Z) :
  Forall word32 ws ->
  read_words (map (fun w => hex_fixed 8 w EmptyString) ws) = Some ws.
Proof.
  induction 1 as [| w ws Hw _ IH]; cbn [map read_words]; [reflexivity |].
  rewrite hex_fixed_8_value by exact Hw. rewrite IH. reflexivity.
Qed.

Lemma read_image_firmware_hex (prog : list Z) :
  read_image (firmware_hex prog) = Some (map (fun w => Z.land w 0xFFFFFFFF) prog).
Proof.
  unfold read_image. rewrite lines_firmware_hex.
  rewrite <- (map_map (fun w => Z.land w 0xFFFFFFFF)
                      (fun w => hex_fixed 8 w EmptyString)).
  apply read_words_fixed. apply List.Forall_map.
  apply List.Forall_forall. intros instr _. apply masked_word32.
Qed.

Lemma mask_word32 (w : Z) : word32 w -> Z.land w 0xFFFFFFFF = w.
Proof. intros H. apply word32_land_ones. exact H. Qed.

(** X11: reading the file back.  The lines of the written file, read as
    hexadecimal numbers, are the words of the program reduced to 32 bits, in
    order; so two programs give the same file exactly when they agree word
    by word modulo 2^32, and a program whose words all fit 32 bits is
    recovered unchanged. *)
Theorem firmware_hex_read_back (p q : list Z) :
  read_image (firmware_hex p) = Some (map (fun w => Z.land w 0xFFFFFFFF) p) /\
  (firmware_hex p = firmware_hex q <->
   map (fun w => Z.land w 0xFFFFFFFF) p = map (fun w => Z.land w 0xFFFFFFFF) q) /\
  (Forall word32 p -> read_image (firmware_hex p) = Some p).
Proof.
  split; [apply read_image_firmware_hex |]. split; [split |].
  - intros Hsame.
    pose proof (read_image_firmware_hex p) as Hp.
    rewrite Hsame, read_image_firmware_hex in Hp. inversion Hp. reflexivity.
  - intros Hsame. rewrite !firmware_hex_unlines.
    rewrite <- !(map_map (fun w => Z.land w 0xFFFFFFFF)
                         (fun w => hex_fixed 8 w EmptyString)).
    rewrite Hsame. reflexivity.
  - intros Hfit. rewrite read_image_firmware_hex. f_equal.
    rewrite <- (map_id p) at 2. apply map_ext_Forall.
    revert Hfit. apply List.Forall_impl. intros w Hw. apply mask_word32. exact Hw.
Qed.

Lemma firmware_hex_read_back_witness :
  Forall word32 [addi x1 x0 42; jal x16 8; csrrs x21 0xB00 x0] /\
  read_image (firmware_hex [addi x1 x0 42; jal x16 8; csrrs x21 0xB00 x0]) =
    Some [addi x1 x0 42; jal x16 8; csrrs x21 0xB00 x0].
Proof.
  assert (Hfit : Forall word32 [addi x1 x0 42; jal x16 8; csrrs x21 0xB00 x0]).
  { repeat (apply List.Forall_cons;
            [split; [apply Z.leb_le | apply Z.ltb_lt]; reflexivity |]).
    apply List.Forall_nil. }
  split; [exact Hfit |].
  exact (proj2 (proj2 (firmware_hex_read_back
           [addi x1 x0 42; jal x16 8; csrrs x21 0xB00 x0] [])) Hfit).
Defined.

(** X12: a patch changes one line.  When [prog[i] = v] succeeds, the file
    of the patched program has the same lines as the file of the original,
    except the line at the patched index, which is the rendering of [v];
    the number of lines is unchanged.  (A negative [i] counts from the
    end.) *)
Theorem patch_changes_one_line (prog patched : list Z) (i v : Z) :
  list_setitem prog i v = Ret patched ->
  exists k : nat,
    (k < length prog)%nat /\
    (Z.of_nat k = i \/ Z.of_nat k = Z.of_nat (length prog) + i) /\
    lines (firmware_hex patched) =
      <[k := hex_fixed 8 (Z.land v 0xFFFFFFFF) EmptyString]> (lines (firmware_hex prog)) /\
    length (lines (firmware_hex patched)) = length (lines (firmware_hex prog)).
Proof.
  intros Hset. rewrite !lines_firmware_hex, !length_map.
  destruct (list_setitem_frame prog patched i v Hset) as (Hlen & k & Hk & Hki & Hv & Hrest).
  exists k. split; [exact Hk |]. split; [exact Hki |]. split; [| exact Hlen].
  assert (Hpatched : patched = <[k := v]> prog).
  { apply list_eq. intros j. destruct (Nat.eq_dec j k) as [-> | Hne].
    - rewrite Hv, list_lookup_insert_eq by exact Hk. reflexivity.
    - rewrite Hrest, list_lookup_insert_ne by congruence. reflexivity. }
  rewrite Hpatched.
  apply (list_fmap_insert
           (fun instr => hex_fixed 8 (Z.land instr 0xFFFFFFFF) EmptyString) prog k v).
Qed.

(** The last word of a three-word program replaced through index -1. *)
Lemma patch_changes_one_line_witness :
  list_setitem [addi x1 x0 42; ecall; ecall] (-1) nop = Ret [addi x1 x0 42; ecall; nop] /\
  lines (firmware_hex [addi x1 x0 42; ecall; nop]) =
    <[2%nat := "00000013"%string]> (lines (firmware_hex [addi x1 x0 42; ecall; ecall])).
Proof.
  split; [reflexivity |].
  destruct (patch_changes_one_line [addi x1 x0 42; ecall; ecall]
              [addi x1 x0 42; ecall; nop] (-1) nop eq_refl)
    as (k & Hk & Hki & Hlines & _).
  cbn [length] in Hk, Hki.
  assert (Hk2 : k = 2%nat) by lia. subst k. exact Hlines.
Defined.

(** ** The bulk scans of the tests *)










(** ** The reset sequence and the tests *)

Lemma clock_cycles_run (n : nat) (s : sim) :
  clock_cycles n s = (Ret tt, {| edges := edges s + n; log := log s |}).
Proof.
  revert s. induction n as [| n IH]; intros s; cbn [clock_cycles].
  - unfold ret. rewrite Nat.add_0_r. destruct s; reflexivity.
  - unfold bind, await_RisingEdge. rewrite IH. cbn [tick edges log].
    do 2 f_equal. lia.
Qed.

Lemma await_ClockCycles_run (n : Z) (b : bench) :
  await_ClockCycles n b =
    (Done tt, {| clk := {| edges := edges (clk b) + Z.to_nat n; log := log (clk b) |};
                 driven := driven b;
                 seen := seen b ++ replicate (Z.to_nat n) (driven b) |}).
Proof.
  unfold await_ClockCycles, liftM. rewrite clock_cycles_run. unfold advance.
  cbn [edges].
  replace (edges (clk b) + Z.to_nat n - edges (clk b))%nat with (Z.to_nat n) by lia.
  reflexivity.
Qed.

Lemma await_edge_run (b : bench) :
  liftM await_RisingEdge b =
    (Done tt, {| clk := tick (clk b); driven := driven b; seen := seen b ++ [driven b] |}).
Proof.
  unfold liftM, await_RisingEdge, advance. cbn [tick edges].
  replace (S (edges (clk b)) - edges (clk b))%nat with 1%nat by lia. reflexivity.
Qed.

Lemma reset_dut_run (cycles : Z) (b : bench) :
  reset_dut cycles b = (Done tt, after_reset (Z.to_nat cycles) b).
Proof.
  unfold reset_dut, bindT, set_rst_n, set_gpio_in, set_uart_rx.
  rewrite await_ClockCycles_run. rewrite await_edge_run.
  unfold after_reset, pins_released, pins_in_reset, tick.
  cbn [clk driven seen edges log rst_n gpio_in uart_rx].
  rewrite <- app_assoc.
  replace (S (edges (clk b) + Z.to_nat cycles)) with (edges (clk b) + Z.to_nat cycles + 1)%nat
    by lia.
  reflexivity.
Qed.

(** X15: [reset_dut(dut, cycles)] with [cycles >= 1] never fails and takes
    [cycles + 1] edges.  The reset input is low, the GPIO inputs 0 and the
    serial input 1 at each of the first [cycles] edges; reset is high at the
    last edge and stays so, the other inputs unchanged.  Nothing is
    logged. *)
Theorem reset_dut_sequence (cycles : Z) (b : bench) :
  1 <= cycles ->
  exists b' : bench,
    reset_dut cycles b = (Done tt, b') /\
    Z.of_nat (edges (clk b')) = Z.of_nat (edges (clk b)) + cycles + 1 /\
    log (clk b') = log (clk b) /\
    driven b' = pins_released /\
    seen b' = seen b ++ replicate (Z.to_nat cycles) pins_in_reset ++ [pins_released] /\
    (forall k : nat, (k < Z.to_nat cycles)%nat ->
       seen b' !! (length (seen b) + k)%nat = Some pins_in_reset).
Proof.
  intros Hpos. exists (after_reset (Z.to_nat cycles) b).
  split; [apply reset_dut_run |]. unfold after_reset. cbn [clk driven seen edges log].
  split; [lia |]. split; [reflexivity |]. split; [reflexivity |]. split; [reflexivity |].
  intros k Hk. rewrite lookup_app_r by lia.
  replace (length (seen b) + k - length (seen b))%nat with k by lia.
  rewrite lookup_app_l by (rewrite length_replicate; exact Hk).
  apply lookup_replicate_2. exact Hk.
Qed.

(** The default reset, from a testbench that has not driven anything. *)
Lemma reset_dut_sequence_witness :
  exists b' : bench,
    reset_dut 10 {| clk := fresh;
                    driven := {| rst_n := None; gpio_in := None; uart_rx := None |};
                    seen := [] |} = (Done tt, b') /\
    edges (clk b') = 11%nat /\
    seen b' = replicate 10 pins_in_reset ++ [pins_released].
Proof.
  destruct (reset_dut_sequence 10
              {| clk := fresh;
                 driven := {| rst_n := None; gpio_in := None; uart_rx := None |};
                 seen := [] |} ltac:(lia))
    as (b' & Hrun & Hedges & _ & _ & Hseen & _).
  exists b'. split; [exact Hrun |]. split; [| exact Hseen].
  cbn in Hedges. lia.
Defined.

(** What a wait does inside a test. *)
Lemma wait_reg_loop_false_inv (dut : dut_handle) (idx val : Z) (n : nat) (s s' : sim) :
  wait_reg_loop dut idx val n s = (Ret false, s') ->
  forall t : nat, (edges s < t <= edges s + n)%nat -> get_reg (dut t) idx <> Ret val.
Proof.
  revert s. induction n as [| n IH]; intros s Hrun t Ht; [lia |].
  rewrite wait_reg_loop_step in Hrun.
  assert (Hrec : wait_reg_loop dut idx val n (tick s) = (Ret false, s') ->
                 get_reg (dut (S (edges s))) idx <> Ret val ->
                 get_reg (dut t) idx <> Ret val).
  { intros Hloop Hfirst. destruct (Nat.eq_dec t (S (edges s))) as [-> | Hne].
    - exact Hfirst.
    - apply (IH _ Hloop). cbn [tick edges]. lia. }
  destruct (get_reg (dut (S (edges s))) idx) as [v | e] eqn:Hsample.
  - destruct (Z.eqb_spec v val) as [Heq | Hne]; [discriminate Hrun |].
    apply Hrec; [exact Hrun | congruence].
  - apply Hrec; [exact Hrun | discriminate].
Qed.

Lemma wait_cases (dut : soc_handle) (idx val : Z) (from n : nat) :
  (exists t : nat, first_match dut idx val from n t) \/ no_match dut idx val from n.
Proof.
  destruct (wait_reg_loop_returns (regs_of dut) idx val n {| edges := from; log := [] |})
    as ([|] & s' & Hrun).
  - left. destruct (wait_reg_loop_true _ _ _ _ _ _ Hrun) as (Hedges & _ & Hval & Hbefore).
    exists (edges s'). split; [exact Hedges |]. split; [exact Hval | exact Hbefore].
  - right. exact (wait_reg_loop_false_inv _ _ _ _ _ _ Hrun).
Qed.

Lemma first_match_unique (dut : soc_handle) (idx val : Z) (from n t t' : nat) :
  first_match dut idx val from n t -> first_match dut idx val from n t' -> t = t'.
Proof.
  intros (Ht & Hv & Hb) (Ht' & Hv' & Hb').
  destruct (Nat.lt_trichotomy t t') as [Hlt | [Heq | Hgt]]; [| exact Heq |].
  - exfalso. apply (Hb' t); [lia | exact Hv].
  - exfalso. apply (Hb t'); [lia | exact Hv'].
Qed.

Lemma first_match_excludes_no_match (dut : soc_handle) (idx val : Z) (from n t : nat) :
  first_match dut idx val from n t -> no_match dut idx val from n -> False.
Proof. intros (Ht & Hv & _) Hno. exact (Hno t Ht Hv). Qed.

Lemma wait_in_test_true (dut : soc_handle) (idx val timeout : Z) (b : bench) (t : nat) :
  first_match dut idx val (edges (clk b)) (Z.to_nat timeout) t ->
  liftM (wait_reg (regs_of dut) idx val timeout) b =
    (Done true, advance {| edges := t; log := log (clk b) |} b).
Proof.
  intros (Ht & Hv & Hbefore). unfold liftM, wait_reg, bind.
  rewrite (wait_reg_loop_first (regs_of dut) idx val _ (clk b) t Ht Hv Hbefore).
  reflexivity.
Qed.

Lemma wait_in_test_false (dut : soc_handle) (idx val timeout : Z) (b : bench) :
  no_match dut idx val (edges (clk b)) (Z.to_nat timeout) ->
  liftM (wait_reg (regs_of dut) idx val timeout) b =
    (Done false,
     advance {| edges := edges (clk b) + Z.to_nat timeout;
                log := log (clk b) ++ [timeout_message idx val] |} b).
Proof.
  intros Hno. unfold liftM, wait_reg, bind.
  rewrite (wait_reg_loop_false (regs_of dut) idx val _ (clk b) Hno).
  reflexivity.
Qed.

Lemma bindT_done {A B : Type} (m : T A) (k : A -> T B) (b b' : bench) (a : A) :
  m b = (Done a, b') -> bindT m k b = k a b'.
Proof. intros H. unfold bindT. rewrite H. reflexivity. Qed.

Lemma bindT_abort {A B : Type} (m : T A) (k : A -> T B) (b b' : bench) (f : abort) :
  m b = (Abort f, b') -> bindT m k b = (Abort f, b').
Proof. intros H. unfold bindT. rewrite H. reflexivity. Qed.

Lemma after_reset_edges (b : bench) :
  edges (clk (after_reset (Z.to_nat 10) b)) = (edges (clk b) + 11)%nat.
Proof. cbn [after_reset clk edges]. change (Z.to_nat 10) with 10%nat. lia. Qed.

(** A test that starts the clock, resets, and waits: the state in which the
    wait returns. *)
Lemma start_reset_wait_true
    {B : Type} (dut : soc_handle) (idx val timeout : Z) (k : bool -> T B) (b : bench) (t : nat) :
  first_match dut idx val (edges (clk b) + 11) (Z.to_nat timeout) t ->
  bindT start_clock (fun _ => bindT (reset_dut 10) (fun _ =>
    bindT (liftM (wait_reg (regs_of dut) idx val timeout)) k)) b =
  k true (advance {| edges := t; log := log (clk b) |} (after_reset (Z.to_nat 10) b)).
Proof.
  intros Hfirst. rewrite <- after_reset_edges in Hfirst.
  rewrite (bindT_done start_clock _ b b tt eq_refl).
  rewrite (bindT_done (reset_dut 10) _ b _ tt (reset_dut_run 10 b)).
  rewrite (bindT_done _ _ _ _ true (wait_in_test_true dut idx val timeout _ t Hfirst)).
  reflexivity.
Qed.

Lemma start_reset_wait_false
    {B : Type} (dut : soc_handle) (idx val timeout : Z) (k : bool -> T B) (b : bench) :
  no_match dut idx val (edges (clk b) + 11) (Z.to_nat timeout) ->
  bindT start_clock (fun _ => bindT (reset_dut 10) (fun _ =>
    bindT (liftM (wait_reg (regs_of dut) idx val timeout)) k)) b =
  k false (advance {| edges := edges (clk b) + 11 + Z.to_nat timeout;
                      log := log (clk b) ++ [timeout_message idx val] |}
                   (after_reset (Z.to_nat 10) b)).
Proof.
  intros Hno. rewrite <- after_reset_edges in Hno.
  rewrite (bindT_done start_clock _ b b tt eq_refl).
  rewrite (bindT_done (reset_dut 10) _ b _ tt (reset_dut_run 10 b)).
  rewrite (bindT_done _ _ _ _ false (wait_in_test_false dut idx val timeout _ Hno)).
  rewrite after_reset_edges. reflexivity.
Qed.

Ltac bench_fields :=
  cbn [fst snd clk edges log driven seen advance after_reset].

(** X16: [test_03_forwarding], [test_05_branches] and
    [test_11_load_use_stall] from any state of the testbench.  Reset takes
    11 edges.  If the awaited register is first found equal to the awaited
    value at edge [t] among the next 50000, the test passes at edge [t]
    with its PASS message as the only new log entry (the register read for
    the message of [test_05] cannot raise: it repeats the sample that
    matched).  If it is not found, the test ends after all 50000 edges with
    the waiter's warning logged and the [AssertionError] of its [assert];
    it never ends with another exception.  One of the two cases holds. *)
Theorem wait_then_assert_tests (dut : soc_handle) (b : bench) :
  wait_then_assert_spec dut b test_03_forwarding 3 52
    "PASS: EX-EX forwarding verified (x3=x1+x2=52)"%string
    "Forwarding failed: x3 != 52"%string /\
  wait_then_assert_spec dut b test_05_branches 15 2
    "PASS: Branches — x15 = 2"%string "Branch test failed"%string /\
  wait_then_assert_spec dut b test_11_load_use_stall 11 52
    "PASS: Load-use stall correctly handled"%string
    "Load-use stall may have failed: x11 != 52"%string.
Proof.
  unfold wait_then_assert_spec. cbv zeta. repeat split; try apply wait_cases.
  - intros t Hfirst. unfold test_03_forwarding.
    rewrite (start_reset_wait_true dut 3 52 50000 _ b t Hfirst).
    eexists. split; [reflexivity |]. bench_fields. split; reflexivity.
  - intros Hno. unfold test_03_forwarding.
    rewrite (start_reset_wait_false dut 3 52 50000 _ b Hno).
    eexists. split; [reflexivity |]. bench_fields. split; reflexivity.
  - intros t Hfirst. unfold test_05_branches.
    rewrite (start_reset_wait_true dut 15 2 50000 _ b t Hfirst).
    destruct Hfirst as (_ & Hval & _).
    unfold bindT, assert_that, read_now, liftM. bench_fields. rewrite Hval.
    eexists. split; [reflexivity |]. bench_fields. split; reflexivity.
  - intros Hno. unfold test_05_branches.
    rewrite (start_reset_wait_false dut 15 2 50000 _ b Hno).
    eexists. split; [reflexivity |]. bench_fields. split; reflexivity.
  - intros t Hfirst. unfold test_11_load_use_stall.
    rewrite (start_reset_wait_true dut 11 52 50000 _ b t Hfirst).
    eexists. split; [reflexivity |]. bench_fields. split; reflexivity.
  - intros Hno. unfold test_11_load_use_stall.
    rewrite (start_reset_wait_false dut 11 52 50000 _ b Hno).
    eexists. split; [reflexivity |]. bench_fields. split; reflexivity.
Qed.

Lemma advance_same (b : bench) (l : list string) :
  advance {| edges := edges (clk b); log := l |} b =
    {| clk := {| edges := edges (clk b); log := l |}; driven := driven b; seen := seen b |}.
Proof.
  unfold advance. cbn [edges]. rewrite Nat.sub_diag. cbn [replicate].
  rewrite app_nil_r. reflexivity.
Qed.

Lemma read_now_run {A : Type} (dut : soc_handle) (f : soc_state -> outcome A) (b : bench) :
  read_now dut f b = (of_outcome (f (dut (edges (clk b)))), b).
Proof.
  unfold read_now, liftM.
  destruct (f (dut (edges (clk b)))) as [a | e]; cbn [of_outcome];
    destruct b as [[e0 l0] d sn]; cbn [clk];
    rewrite (advance_same {| clk := {| edges := e0; log := l0 |}; driven := d; seen := sn |});
    reflexivity.
Qed.

Lemma log_info_run (msg : string) (b : bench) :
  log_info msg b = (Done tt, logged [msg] b).
Proof. unfold log_info, liftM. cbn [edges]. rewrite advance_same. reflexivity. Qed.

Lemma logged_logged (l1 l2 : list string) (b : bench) :
  logged l2 (logged l1 b) = logged (l1 ++ l2) b.
Proof. unfold logged. cbn [clk edges log driven seen]. rewrite <- app_assoc. reflexivity. Qed.

(** One step of a test: the binds, the assignments to inputs and the
    assertions reduce by themselves. *)
Ltac run_T :=
  cbv beta iota delta [bindT set_rst_n set_gpio_in set_uart_rx start_clock retT assert_that].

(** X17: [test_01_reset] from any state of the testbench.  It drives reset
    low and never releases it, lets exactly 10 edges pass with the inputs at
    their idle values, and reads the fetch PC once, after the 10th edge.  It
    passes if that reading is 0, fails its [assert] with the value in the
    message if it is another number, and ends in the exception of the
    reading if the PC cannot be read. *)
Theorem test_01_reset_outcome (dut : soc_handle) (b : bench) :
  let t := (edges (clk b) + 10)%nat in
  exists b' : bench,
    test_01_reset dut b =
      (match pc_if (dut t) with
       | Ret pc =>
           if pc =? 0 then Done tt
           else Abort (AssertionError (String.append "Reset PC = 0x" (format_08X pc)))
       | Raise e => Abort (Uncaught e)
       end, b') /\
    edges (clk b') = t /\
    driven b' = pins_in_reset /\
    seen b' = seen b ++ replicate 10 pins_in_reset /\
    log (clk b') =
      match pc_if (dut t) with
      | Ret 0 => log (clk b) ++ ["PASS: Reset PC = 0x00000000"%string]
      | _ => log (clk b)
      end.
Proof.
  cbv zeta. unfold test_01_reset. run_T.
  rewrite await_ClockCycles_run. run_T.
  change (Z.to_nat 10) with 10%nat. rewrite read_now_run. bench_fields.
  destruct (pc_if (dut (edges (clk b) + 10)%nat)) as [pc | e]; cbn [of_outcome]; run_T.
  - destruct (Z.eqb_spec pc 0) as [-> | Hpc].
    + rewrite log_info_run. eexists. split; [reflexivity |].
      unfold logged. bench_fields. repeat split; reflexivity.
    + eexists. split; [unfold cat; cbn [fold_right]; rewrite append_empty_r; reflexivity |].
      bench_fields. repeat split; try reflexivity.
      destruct pc; try reflexivity. contradiction.
  - eexists. split; [reflexivity |]. bench_fields. repeat split; reflexivity.
Qed.

Lemma run_checks_step
    (dut : soc_handle) (reg exp : Z) (name : string) (cs : list (Z * Z * string)) (b : bench) :
  run_checks dut ((reg, exp, name) :: cs) b =
    match get_reg (regfile (dut (edges (clk b)))) reg with
    | Ret val =>
        if val =? exp
        then run_checks dut cs
               (logged [cat ["PASS: "; name; " x"; str reg; " = "; str val]%string] b)
        else (Abort (AssertionError
                (cat [name; " x"; str reg; ": got "; str val; ", expected "; str exp]%string)),
              b)
    | Raise e => (Abort (Uncaught e), b)
    end.
Proof.
  cbn [run_checks]. unfold bindT at 1. rewrite read_now_run.
  destruct (get_reg (regfile (dut (edges (clk b)))) reg) as [val | e]; cbn [of_outcome];
    [| reflexivity].
  run_T. destruct (val =? exp); [| reflexivity].
  rewrite log_info_run. reflexivity.
Qed.

Lemma run_checks_verdict (dut : soc_handle) (cs : list (Z * Z * string)) (b : bench) :
  edges (clk (snd (run_checks dut cs b))) = edges (clk b) /\
  (fst (run_checks dut cs b) = Done tt <->
   Forall (check_holds (dut (edges (clk b)))) cs).
Proof.
  revert b. induction cs as [| [[reg exp] name] cs IH]; intros b.
  - cbn [run_checks]. split; [reflexivity |].
    split; [intros _; apply List.Forall_nil | reflexivity].
  - rewrite run_checks_step.
    assert (Hhead : Forall (check_holds (dut (edges (clk b)))) ((reg, exp, name) :: cs) ->
                    get_reg (regfile (dut (edges (clk b)))) reg = Ret exp).
    { intros Hall. inversion Hall as [| ? ? Hhead _]. exact Hhead. }
    destruct (get_reg (regfile (dut (edges (clk b)))) reg) as [val | e] eqn:Hread.
    + destruct (Z.eqb_spec val exp) as [-> | Hne].
      * match goal with
        | |- context [run_checks dut cs ?b1] =>
            destruct (IH b1) as (Hedges & Hiff);
            change (edges (clk b1)) with (edges (clk b)) in Hedges, Hiff
        end.
        split; [exact Hedges |]. rewrite Hiff. split.
        -- intros Hall. apply List.Forall_cons; [exact Hread | exact Hall].
        -- intros Hall. inversion Hall. assumption.
      * cbn [fst snd]. split; [reflexivity |]. split; [discriminate |].
        intros Hall. specialize (Hhead Hall). congruence.
    + cbn [fst snd]. split; [reflexivity |]. split; [discriminate |].
      intros Hall. specialize (Hhead Hall). discriminate.
Qed.

(** X18: [test_02_alu_pipeline] from any state of the testbench.  After the
    11 edges of reset it waits for register 3 to read 52.  If that first
    happens at edge [t] among the next 50000, the test ends at edge [t]
    without awaiting any further edge, and it passes exactly when each of
    the nine registers of its table reads its expected value in the state
    of that same edge.  If it does not happen, the test fails its first
    [assert] after all 50000 edges. *)
Theorem test_02_alu_pipeline_outcome (dut : soc_handle) (b : bench) :
  let from := (edges (clk b) + 11)%nat in
  let n := Z.to_nat 50000 in
  ((exists t : nat, first_match dut 3 52 from n t) \/ no_match dut 3 52 from n) /\
  (forall t : nat, first_match dut 3 52 from n t ->
     edges (clk (snd (test_02_alu_pipeline dut b))) = t /\
     (fst (test_02_alu_pipeline dut b) = Done tt <-> Forall (check_holds (dut t)) checks)) /\
  (no_match dut 3 52 from n ->
     fst (test_02_alu_pipeline dut b) = Abort (AssertionError "x3 never reached 52"%string) /\
     edges (clk (snd (test_02_alu_pipeline dut b))) = (from + n)%nat).
Proof.
  cbv zeta. split; [apply wait_cases |]. split.
  - intros t Hfirst. unfold test_02_alu_pipeline.
    rewrite (start_reset_wait_true dut 3 52 50000 _ b t Hfirst). run_T.
    apply (run_checks_verdict dut checks
             (advance {| edges := t; log := log (clk b) |} (after_reset (Z.to_nat 10) b))).
  - intros Hno. unfold test_02_alu_pipeline.
    rewrite (start_reset_wait_false dut 3 52 50000 _ b Hno). run_T.
    split; reflexivity.
Qed.

(** X19: [test_04_load_store_cache] from any state of the testbench: two
    waits in a row, the second starting at the edge where the first ended.
    With register 11 first reading 52 at edge [t1] (among the 50000 after
    reset) and register 12 first reading 0x55 at edge [t2] (among the 50000
    after [t1]) the test passes at [t2], both PASS messages logged.
    Without the first it fails its first [assert]; with the first but not
    the second it fails its second [assert], 50000 edges after [t1].  The
    registers read for the messages repeat the samples that matched, so the
    test never ends in another exception. *)
Theorem test_04_load_store_cache_outcome (dut : soc_handle) (b : bench) :
  let from := (edges (clk b) + 11)%nat in
  let n := Z.to_nat 50000 in
  (forall t1 t2 : nat,
     first_match dut 11 52 from n t1 -> first_match dut 12 0x55 t1 n t2 ->
     exists b' : bench,
       test_04_load_store_cache dut b = (Done tt, b') /\ edges (clk b') = t2 /\
       log (clk b') =
         log (clk b) ++ ["PASS: LW x11 = 52"; "PASS: LBU x12 = 0x55"]%string) /\
  (no_match dut 11 52 from n ->
     exists b' : bench,
       test_04_load_store_cache dut b =
         (Abort (AssertionError "LW through D-cache failed"%string), b') /\
       edges (clk b') = (from + n)%nat) /\
  (forall t1 : nat,
     first_match dut 11 52 from n t1 -> no_match dut 12 0x55 t1 n ->
     exists b' : bench,
       test_04_load_store_cache dut b =
         (Abort (AssertionError "LBU through D-cache failed"%string), b') /\
       edges (clk b') = (t1 + n)%nat /\
       log (clk b') =
         log (clk b) ++ ["PASS: LW x11 = 52"%string; timeout_message 12 0x55]).
Proof.
  cbv zeta. split; [| split].
  - intros t1 t2 H1 H2. unfold test_04_load_store_cache.
    rewrite (start_reset_wait_true dut 11 52 50000 _ b t1 H1). run_T.
    rewrite read_now_run. bench_fields.
    destruct H1 as (_ & Hval1 & _). rewrite Hval1. cbn [of_outcome]. run_T.
    rewrite log_info_run. run_T.
    match goal with
    | |- context [liftM (wait_reg (regs_of dut) 12 0x55 50000) ?b1] =>
        rewrite (wait_in_test_true dut 12 0x55 50000 b1 t2 H2)
    end. run_T.
    rewrite read_now_run. bench_fields.
    destruct H2 as (_ & Hval2 & _). rewrite Hval2. cbn [of_outcome]. run_T.
    rewrite log_info_run.
    eexists. split; [reflexivity |]. unfold logged. bench_fields.
    split; [reflexivity |]. rewrite <- app_assoc. reflexivity.
  - intros Hno. unfold test_04_load_store_cache.
    rewrite (start_reset_wait_false dut 11 52 50000 _ b Hno). run_T.
    eexists. split; [reflexivity |]. bench_fields. reflexivity.
  - intros t1 H1 Hno. unfold test_04_load_store_cache.
    rewrite (start_reset_wait_true dut 11 52 50000 _ b t1 H1). run_T.
    rewrite read_now_run. bench_fields.
    destruct H1 as (_ & Hval1 & _). rewrite Hval1. cbn [of_outcome]. run_T.
    rewrite log_info_run. run_T.
    match goal with
    | |- context [liftM (wait_reg (regs_of dut) 12 0x55 50000) ?b1] =>
        rewrite (wait_in_test_false dut 12 0x55 50000 b1 Hno)
    end. run_T.
    eexists. split; [reflexivity |]. unfold logged. bench_fields.
    split; [reflexivity |]. rewrite <- app_assoc. reflexivity.
Qed.

(** X20: [test_06_jal] from any state of the testbench.  If register 17 is
    not found equal to 3 in the 50000 edges after reset, the test fails its
    first [assert].  If it is first found at edge [t], the test ends at
    [t], and how is decided by register 16 in the state of that same edge:
    it passes if the register reads a nonzero value, fails its second
    [assert] if it reads 0, and ends in the exception of the reading if the
    register cannot be read. *)
Theorem test_06_jal_outcome (dut : soc_handle) (b : bench) :
  let from := (edges (clk b) + 11)%nat in
  let n := Z.to_nat 50000 in
  (forall t : nat, first_match dut 17 3 from n t ->
     exists b' : bench,
       test_06_jal dut b =
         (match get_reg (regfile (dut t)) 16 with
          | Ret x16 =>
              if x16 =? 0
              then Abort (AssertionError "JAL link register is zero"%string)
              else Done tt
          | Raise e => Abort (Uncaught e)
          end, b') /\
       edges (clk b') = t) /\
  (no_match dut 17 3 from n ->
     exists b' : bench,
       test_06_jal dut b = (Abort (AssertionError "JAL target not reached"%string), b') /\
       edges (clk b') = (from + n)%nat).
Proof.
  cbv zeta. split.
  - intros t Hfirst. unfold test_06_jal.
    rewrite (start_reset_wait_true dut 17 3 50000 _ b t Hfirst). run_T.
    rewrite read_now_run. bench_fields.
    destruct (get_reg (regfile (dut t)) 16) as [x16 | e] eqn:H16; cbn [of_outcome]; run_T.
    + destruct (Z.eqb_spec x16 0) as [-> | Hnz]; cbn [negb].
      * eexists. split; [reflexivity |]. bench_fields. reflexivity.
      * rewrite read_now_run. bench_fields.
        destruct Hfirst as (_ & H17 & _). rewrite H17. cbn [of_outcome]. run_T.
        rewrite read_now_run. bench_fields. rewrite H16. cbn [of_outcome]. run_T.
        rewrite log_info_run.
        eexists. split; [reflexivity |]. unfold logged. bench_fields. reflexivity.
    + eexists. split; [reflexivity |]. bench_fields. reflexivity.
  - intros Hno. unfold test_06_jal.
    rewrite (start_reset_wait_false dut 17 3 50000 _ b Hno). run_T.
    eexists. split; [reflexivity |]. bench_fields. reflexivity.
Qed.

(** X21: [test_07_loop_bp_training] from any state of the testbench.  If
    register 23 is not found equal to 0 in the 100000 edges after reset, the
    test fails its first [assert].  If it is first found at edge [t], the
    branch history table is scanned in the state of that same edge, and
    the test passes exactly when the scan counts at least one entry;
    otherwise it fails its second [assert].  It never ends in another
    exception, whatever cannot be read. *)
Theorem test_07_loop_bp_training_outcome (dut : soc_handle) (b : bench) :
  let from := (edges (clk b) + 11)%nat in
  let n := Z.to_nat 100000 in
  (forall t : nat, first_match dut 23 0 from n t ->
     exists b' : bench,
       test_07_loop_bp_training dut b =
         (if 0 <? count_trained (dut t) then Done tt
          else Abort (AssertionError "No BHT entries trained"%string), b') /\
       edges (clk b') = t) /\
  (no_match dut 23 0 from n ->
     exists b' : bench,
       test_07_loop_bp_training dut b =
         (Abort (AssertionError "Loop did not complete"%string), b') /\
       edges (clk b') = (from + n)%nat).
Proof.
  cbv zeta. split.
  - intros t Hfirst. unfold test_07_loop_bp_training.
    rewrite (start_reset_wait_true dut 23 0 100000 _ b t Hfirst). run_T.
    rewrite log_info_run. run_T. rewrite read_now_run. unfold logged. bench_fields.
    cbn [of_outcome]. run_T.
    destruct (0 <? count_trained (dut t)).
    + rewrite log_info_run. eexists. split; [reflexivity |].
      unfold logged. bench_fields. reflexivity.
    + eexists. split; [reflexivity |]. bench_fields. reflexivity.
  - intros Hno. unfold test_07_loop_bp_training.
    rewrite (start_reset_wait_false dut 23 0 100000 _ b Hno). run_T.
    eexists. split; [reflexivity |]. bench_fields. reflexivity.
Qed.

(** X22: [test_08_icache] from any state of the testbench.  The result of
    its wait is dropped: whether register 3 is first found equal to 52 at
    some edge, or is not found and the wait runs through all 50000 edges,
    the instruction cache is scanned in the state of the edge where the wait
    ended, and the test passes exactly when the scan counts at least one
    valid bit.  So the test can pass although register 3 never read 52; the
    waiter's warning is then in the log. *)
Theorem test_08_icache_outcome (dut : soc_handle) (b : bench) :
  let from := (edges (clk b) + 11)%nat in
  let n := Z.to_nat 50000 in
  let verdict_at (t : nat) : verdict unit :=
    if 0 <? count_valid (dut t) then Done tt
    else Abort (AssertionError "I-cache has no valid lines"%string) in
  (forall t : nat, first_match dut 3 52 from n t ->
     exists b' : bench,
       test_08_icache dut b = (verdict_at t, b') /\ edges (clk b') = t) /\
  (no_match dut 3 52 from n ->
     exists b' : bench,
       test_08_icache dut b = (verdict_at (from + n)%nat, b') /\
       edges (clk b') = (from + n)%nat /\
       In (timeout_message 3 52) (log (clk b'))).
Proof.
  cbv zeta. split.
  - intros t Hfirst. unfold test_08_icache.
    rewrite (start_reset_wait_true dut 3 52 50000 _ b t Hfirst). run_T.
    rewrite read_now_run. bench_fields. cbn [of_outcome]. run_T.
    destruct (0 <? count_valid (dut t)).
    + rewrite log_info_run. eexists. split; [reflexivity |].
      unfold logged. bench_fields. reflexivity.
    + eexists. split; [reflexivity |]. bench_fields. reflexivity.
  - intros Hno. unfold test_08_icache.
    rewrite (start_reset_wait_false dut 3 52 50000 _ b Hno). run_T.
    rewrite read_now_run. bench_fields. cbn [of_outcome]. run_T.
    destruct (0 <? count_valid (dut (edges (clk b) + 11 + Z.to_nat 50000)%nat)).
    + rewrite log_info_run. eexists. split; [reflexivity |].
      unfold logged. bench_fields. split; [reflexivity |].
      apply List.in_or_app. left. apply List.in_or_app. right. left. reflexivity.
    + eexists. split; [reflexivity |]. bench_fields. split; [reflexivity |].
      apply List.in_or_app. right. left. reflexivity.
Qed.

(** X23: [test_09_gpio_input] from any state of the testbench.  It lets 11
    edges pass in reset and 20 more with the GPIO inputs at 0, then drives
    them to 0xCAFEBABE for exactly 5 edges and reads the synchronised
    register once, after the last of these (36 edges in all).  It passes if
    that reading is 0xCAFEBABE, fails its [assert] if it is another number,
    and ends in the exception of the reading if the register cannot be
    read. *)
Theorem test_09_gpio_input_outcome (dut : soc_handle) (b : bench) :
  let t := (edges (clk b) + 36)%nat in
  exists b' : bench,
    test_09_gpio_input dut b =
      (match gpio_in_sync (dut t) with
       | Ret synced =>
           if synced =? 0xCAFEBABE then Done tt
           else Abort (AssertionError (String.append "Got 0x" (format_08X synced)))
       | Raise e => Abort (Uncaught e)
       end, b') /\
    edges (clk b') = t /\
    seen b' = seen b ++ replicate 10 pins_in_reset ++ replicate 21 pins_released
                     ++ replicate 5 pins_stimulus.
Proof.
  cbv zeta. unfold test_09_gpio_input. run_T.
  rewrite reset_dut_run. run_T.
  rewrite await_ClockCycles_run. run_T.
  rewrite await_ClockCycles_run. run_T.
  rewrite read_now_run. bench_fields.
  change (Z.to_nat 10) with 10%nat. change (Z.to_nat 20) with 20%nat.
  change (Z.to_nat 5) with 5%nat.
  replace (edges (clk b) + 10 + 1 + 20 + 5)%nat with (edges (clk b) + 36)%nat by lia.
  assert (Hseen : (seen b ++ replicate 10 pins_in_reset ++ [pins_released])
                    ++ replicate 20 pins_released =
                  seen b ++ replicate 10 pins_in_reset ++ replicate 21 pins_released).
  { rewrite <- !app_assoc. reflexivity. }
  destruct (gpio_in_sync (dut (edges (clk b) + 36)%nat)) as [synced | e];
    cbn [of_outcome]; run_T.
  - destruct (synced =? 0xCAFEBABE).
    + rewrite log_info_run. eexists. split; [reflexivity |].
      unfold logged. bench_fields. split; [reflexivity |].
      rewrite Hseen, <- !app_assoc. reflexivity.
    + eexists. split; [unfold cat; cbn [fold_right]; rewrite append_empty_r; reflexivity |].
      bench_fields. split; [reflexivity |]. rewrite Hseen, <- !app_assoc. reflexivity.
  - eexists. split; [reflexivity |]. bench_fields. split; [reflexivity |].
    rewrite Hseen, <- !app_assoc. reflexivity.
Qed.

(** X24: [test_10_csr_mcycle] from any state of the testbench.  It reads
    the cycle counter once, 111 edges after it started (11 of reset and
    100 more), and looks at its low 32 bits only: it passes exactly when the
    reading is not a multiple of 2^32, fails its [assert] when it is (0
    included), and ends in the exception of the reading if the counter
    cannot be read. *)
Theorem test_10_csr_mcycle_outcome (dut : soc_handle) (b : bench) :
  let t := (edges (clk b) + 111)%nat in
  exists b' : bench,
    test_10_csr_mcycle dut b =
      (match mcycle (dut t) with
       | Ret raw =>
           if raw mod 2 ^ 32 =? 0 then Abort (AssertionError "mcycle = 0"%string)
           else Done tt
       | Raise e => Abort (Uncaught e)
       end, b') /\
    edges (clk b') = t.
Proof.
  cbv zeta. unfold test_10_csr_mcycle. run_T.
  rewrite reset_dut_run. run_T.
  rewrite await_ClockCycles_run. run_T.
  rewrite read_now_run. bench_fields.
  change (Z.to_nat 10) with 10%nat. change (Z.to_nat 100) with 100%nat.
  replace (edges (clk b) + 10 + 1 + 100)%nat with (edges (clk b) + 111)%nat by lia.
  destruct (mcycle (dut (edges (clk b) + 111)%nat)) as [raw | e]; cbn [of_outcome]; run_T.
  - change 0xFFFFFFFF with (Z.ones 32). rewrite Z.land_ones by lia.
    pose proof (Z.mod_pos_bound raw (2 ^ 32) ltac:(lia)) as Hbound.
    destruct (Z.eqb_spec (raw mod 2 ^ 32) 0) as [-> | Hnz].
    + eexists. split; [reflexivity |]. bench_fields. reflexivity.
    + destruct (Z.ltb_spec 0 (raw mod 2 ^ 32)); [| lia].
      rewrite log_info_run. eexists. split; [reflexivity |].
      unfold logged. bench_fields. reflexivity.
  - eexists. split; [reflexivity |]. bench_fields. reflexivity.
Qed.

(** ** The console report *)

Lemma zeros_length (k : nat) (s : string) :
  String.length (zeros k s) = (k + String.length s)%nat.
Proof. induction k as [| k IH]; cbn [zeros String.length]; [reflexivity | rewrite IH; lia]. Qed.

Lemma zeros_value (k : nat) (s : string) : hex_value (zeros k s) = hex_value s.
Proof. unfold hex_value. induction k as [| k IH]; cbn [zeros]; [reflexivity | exact IH]. Qed.

Lemma format_04X_value (z : Z) :
  0 <= z ->
  hex_value (format_04X z) = Some z /\ (4 <= String.length (format_04X z))%nat.
Proof.
  intros Hz. unfold format_04X. destruct (Z.ltb_spec z 0) as [Hneg | _]; [lia |].
  unfold zfill. split.
  - rewrite zeros_value. apply hex_upper_value. exact Hz.
  - rewrite zeros_length. lia.
Qed.

Lemma enumerate_from_lookup (k : Z) (l : list Z) (i : nat) (x : Z) :
  l !! i = Some x -> enumerate_from k l !! i = Some (k + Z.of_nat i, x).
Proof.
  revert k i. induction l as [| y l IH]; intros k i Hi; [discriminate Hi |].
  destruct i as [| i]; cbn [enumerate_from].
  - cbn in Hi. inversion Hi. cbn. do 2 f_equal. lia.
  - cbn in Hi. change ((((k, y) :: enumerate_from (k + 1) l) !! S i))
      with (enumerate_from (k + 1) l !! i).
    rewrite (IH (k + 1) i Hi). do 2 f_equal. lia.
Qed.

Lemma enumerate_from_length (k : Z) (l : list Z) :
  length (enumerate_from k l) = length l.
Proof.
  revert k. induction l as [| y l IH]; intros k; cbn [enumerate_from length];
    [reflexivity | rewrite IH; reflexivity].
Qed.

(** X25: the report printed after the file is written (lines 150-152) has
    one heading and then one line per instruction.  The line for index [i]
    is two spaces, [0x], the byte address, a colon and a space, and the very
    text of line [i] of the file; the address is [4 * i] in at least four
    uppercase hexadecimal digits (more when it needs them: it is never cut
    short). *)
Theorem stdout_agrees_with_file (prog : list Z) :
  length (stdout prog) = S (length prog) /\
  stdout prog !! 0%nat = Some (header prog) /\
  (forall (i : nat) (instr : Z),
     prog !! i = Some instr ->
     exists address line : string,
       stdout prog !! S i =
         Some (String.append "  0x" (String.append address (String.append ": " line))) /\
       hex_value address = Some (4 * Z.of_nat i) /\
       (4 <= String.length address)%nat /\
       lines (firmware_hex prog) !! i = Some line).
Proof.
  unfold stdout. split; [| split].
  - cbn [length]. rewrite length_map, enumerate_from_length. reflexivity.
  - reflexivity.
  - intros i instr Hi.
    exists (format_04X (Z.of_nat i * 4)), (hex_fixed 8 (Z.land instr 0xFFFFFFFF) EmptyString).
    destruct (format_04X_value (Z.of_nat i * 4) ltac:(lia)) as [Hvalue Hlength].
    split; [| split; [| split]].
    + change ((header prog :: map (fun entry => dump_line (fst entry) (snd entry))
                                   (enumerate_from 0 prog)) !! S i)
        with (map (fun entry => dump_line (fst entry) (snd entry))
                  (enumerate_from 0 prog) !! i).
      rewrite list_lookup_fmap.
      rewrite (enumerate_from_lookup 0 prog i instr Hi). cbn [fmap option_fmap option_map fst snd].
      unfold dump_line. rewrite format_08X_fixed by apply masked_word32.
      rewrite Z.add_0_l. reflexivity.
    + rewrite Hvalue. f_equal. lia.
    + exact Hlength.
    + rewrite lines_firmware_hex, list_lookup_fmap, Hi. reflexivity.
Qed.

Example stdout_sample :
  stdout [addi x1 x0 42; jal x16 8] =
    ["Generated 2 instructions"; "  0x0000: 02A00093"; "  0x0004: 0080086F"]%string.
Proof. reflexivity. Qed.

(** ** The tests on concrete devices *)

Example tests_pass_on_working_device :
  fst (test_01_reset soc_working bench0) = Done tt /\
  fst (test_02_alu_pipeline soc_working bench0) = Done tt /\
  fst (test_03_forwarding soc_working bench0) = Done tt /\
  fst (test_04_load_store_cache soc_working bench0) = Done tt /\
  fst (test_05_branches soc_working bench0) = Done tt /\
  fst (test_06_jal soc_working bench0) = Done tt /\
  fst (test_07_loop_bp_training soc_working bench0) = Done tt /\
  fst (test_08_icache soc_working bench0) = Done tt /\
  fst (test_09_gpio_input soc_working bench0) = Done tt /\
  fst (test_10_csr_mcycle soc_working bench0) = Done tt /\
  fst (test_11_load_use_stall soc_working bench0) = Done tt.
Proof. repeat split; vm_compute; reflexivity. Qed.

Example test_02_log_on_working_device :
  log (clk (snd (test_02_alu_pipeline soc_working bench0))) =
    [ "PASS: ADDI x1 = 42"; "PASS: ADDI x2 = 10"; "PASS: ADD x3 = 52";
      "PASS: SUB x4 = 32"; "PASS: ANDI x5 = 52"; "PASS: ORI x6 = 85";
      "PASS: XORI x7 = 170"; "PASS: SLLI x8 = 160"; "PASS: SRLI x9 = 40" ]%string /\
  edges (clk (snd (test_02_alu_pipeline soc_working bench0))) = 20%nat.
Proof. split; vm_compute; reflexivity. Qed.

Example tests_on_dead_device :
  fst (test_01_reset soc_dead bench0) = Abort (Uncaught ValueError) /\
  fst (test_03_forwarding soc_dead bench0) =
    Abort (AssertionError "Forwarding failed: x3 != 52") /\
  log (clk (snd (test_03_forwarding soc_dead bench0))) =
    ["Timeout waiting for x3 = 0x00000034"%string] /\
  fst (test_07_loop_bp_training soc_dead bench0) =
    Abort (AssertionError "No BHT entries trained") /\
  fst (test_08_icache soc_dead bench0) =
    Abort (AssertionError "I-cache has no valid lines") /\
  fst (test_10_csr_mcycle soc_dead bench0) = Abort (Uncaught ValueError).
Proof. repeat split; vm_compute; reflexivity. Qed.
